(** * Weather station ingestion server: a shallow embedding of
    [Server_weath.py] and the properties of its storage engine, message
    validator, connection handler and read endpoint. *)

From Stdlib Require Import ZArith NArith List String Ascii Bool Lia Sorted.
From Stdlib.Strings Require Import Byte.
From stdpp Require Import gmap list strings fin_maps.
Import ListNotations.

Local Open Scope Z_scope.

(** ** Python strings

    A Python [str] is a sequence of Unicode code points; a [bytes] object
    is a sequence of bytes. *)

Abbreviation char := N (only parsing).
Abbreviation str := (list N) (only parsing).
Abbreviation bytes := (list byte) (only parsing).

(** An ASCII literal of the source, as a [str]. *)
Definition py (s : string) : str := map N_of_ascii (list_ascii_of_string s).

(** The same literal as it travels on the wire. *)
Definition wire (s : string) : bytes := list_byte_of_string s.

Definition in_range (lo hi c : N) : bool := (N.leb lo c && N.leb c hi)%bool.

Definition underscore : N := 95%N.
Definition hyphen : N := 45%N.
Definition newline : N := 10%N.

Definition is_digit (c : N) : bool := in_range 48 57 c.
Definition is_lower (c : N) : bool := in_range 97 122 c.
Definition is_upper (c : N) : bool := in_range 65 90 c.

(** ** Exceptions of the run time and of the libraries *)

Inductive exn :=
| ValueError          (* sanitize: unsafe station_id *)
| TypeError
| KeyError
| AttributeError
| OverflowError
| UnicodeDecodeError
| UnicodeEncodeError
| ProgrammingError    (* sqlite3: unsupported parameter type *)
| IntegrityError      (* sqlite3: NOT NULL, datatype mismatch *)
| OperationalError.   (* sqlite3: syntax error, missing table, reserved name *)

Inductive result (A : Type) :=
| Ok (a : A)
| Raise (e : exn).
Arguments Ok {A} a.
Arguments Raise {A} e.

#[export] Instance result_ret : MRet result := fun _ a => Ok a.
#[export] Instance result_bind : MBind result := fun _ _ k r =>
  match r with
  | Ok a => k a
  | Raise e => Raise e
  end.

(** ** [sanitize]

    [SAFE_NAME = re.compile(r"^[a-zA-Z0-9_\-]+$")].  The character class,
    then the pattern as the regular expression engine runs it: one class
    character, then at each position either the end anchor or one more class
    character.  Python's [$] (without MULTILINE) matches at the end of the
    string and also just before a newline that is the last character. *)

Definition safe_char (c : N) : bool :=
  (is_lower c || is_upper c || is_digit c || N.eqb c underscore || N.eqb c hyphen)%bool.

Definition at_dollar (s : str) : bool :=
  match s with
  | [] => true
  | [c] => N.eqb c newline
  | _ => false
  end.

Fixpoint class_star_dollar (s : str) : bool :=
  (at_dollar s ||
   match s with
   | c :: rest => safe_char c && class_star_dollar rest
   | [] => false
   end)%bool.

Definition SAFE_NAME_match (name : str) : bool :=
  match name with
  | c :: rest => (safe_char c && class_star_dollar rest)%bool
  | [] => false
  end.

(** ** [extract_station_location] *)

(** [s.split(sep)] for a one-character separator. *)
Fixpoint split (sep : N) (s : str) : list str :=
  match s with
  | [] => [[]]
  | c :: rest =>
      if N.eqb c sep then [] :: split sep rest
      else match split sep rest with
           | p :: ps => (c :: p) :: ps
           | [] => [[c]]
           end
  end.

Definition extract_station_location (station_id : str) : str :=
  let parts := split underscore station_id in
  if (1 <? length parts)%nat then List.last parts [] else station_id.

(** ** Python values

    The values [json.loads] can return.  A float is kept as the decimal
    numeral that denotes it (sign, digits, power of ten, without trailing
    zeros); the server never computes with a reading, it stores it and
    returns it.  The rounding and the range of a double are left out. *)

Inductive float :=
| FDec (neg : bool) (m : N) (e : Z)
| FInf (neg : bool)
| FNaN.

Fixpoint strip_zeros (fuel : nat) (m : N) (e : Z) : N * Z :=
  match fuel with
  | O => (m, e)
  | S fuel' =>
      if N.eqb m 0 then (0%N, 0)
      else if N.eqb (m mod 10) 0 then strip_zeros fuel' (m / 10)%N (e + 1)
      else (m, e)
  end.

Definition mk_float (neg : bool) (m : N) (e : Z) : float :=
  let '(m', e') := strip_zeros (S (N.size_nat m)) m e in FDec neg m' e'.

Definition float_of_Z (z : Z) : float := mk_float (z <? 0) (Z.abs_N z) 0.

Local Unset Elimination Schemes.
Inductive pyval :=
| PNone
| PBool (b : bool)
| PInt (z : Z)
| PFloat (f : float)
| PStr (s : str)
| PList (l : list pyval)
| PDict (d : list (str * pyval)).
Local Set Elimination Schemes.

Definition str_eqb (a b : str) : bool := bool_decide (a = b).

(** A [dict] keeps its keys in insertion order; assigning to a key that is
    present replaces the value in place. *)
Fixpoint dict_get (k : str) (d : list (str * pyval)) : option pyval :=
  match d with
  | [] => None
  | (k', v) :: rest => if str_eqb k k' then Some v else dict_get k rest
  end.

Fixpoint dict_set (k : str) (v : pyval) (d : list (str * pyval)) : list (str * pyval) :=
  match d with
  | [] => [(k, v)]
  | (k', v') :: rest =>
      if str_eqb k k' then (k, v) :: rest else (k', v') :: dict_set k v rest
  end.

(** [data[key]] for a [str] key. *)
Definition subscript (data : pyval) (key : str) : result pyval :=
  match data with
  | PDict d => match dict_get key d with
               | Some v => Ok v
               | None => Raise KeyError
               end
  | _ => Raise TypeError
  end.

Definition hashable (v : pyval) : bool :=
  match v with
  | PList _ | PDict _ => false
  | _ => true
  end.

(** [required.issubset(data)] for a set of [str]: [data] is iterated, every
    item is hashed, and the members of [required] are looked up among the
    items.  A dict iterates over its keys, a str over its characters. *)
Definition issubset (required : list str) (data : pyval) : result bool :=
  match data with
  | PDict d => Ok (forallb (fun k => existsb (fun kv => str_eqb k (fst kv)) d) required)
  | PList l =>
      if forallb hashable l
      then Ok (forallb (fun k => existsb (fun v => match v with
                                                   | PStr s => str_eqb k s
                                                   | _ => false
                                                   end) l) required)
      else Raise TypeError
  | PStr s => Ok (forallb (fun k => existsb (fun c => str_eqb k [c]) s) required)
  | PNone | PBool _ | PInt _ | PFloat _ => Raise TypeError
  end.

(** [sanitize(name)]: [re.Pattern.match] wants a [str]. *)
Definition sanitize (name : pyval) : result str :=
  match name with
  | PStr s => if SAFE_NAME_match s then Ok s else Raise ValueError
  | _ => Raise TypeError
  end.

(** ** SQLite values, parameter binding and column affinity *)

Inductive sqlval :=
| SNull
| SInt (z : Z)
| SReal (f : float)
| SText (s : str).

Definition is_surrogate (c : N) : bool := in_range 55296 57343 c.

(** A float as SQLite keeps it: NaN becomes NULL, and a zero loses its
    sign. *)
Definition sql_real (f : float) : sqlval :=
  match f with
  | FNaN => SNull
  | FDec _ 0%N _ => SReal (FDec false 0 0)
  | _ => SReal f
  end.

(** How the [sqlite3] module binds a Python value to a [?]. *)
Definition bind_param (v : pyval) : result sqlval :=
  match v with
  | PNone => Ok SNull
  | PBool b => Ok (SInt (if b then 1 else 0))
  | PInt z =>
      if ((- 2 ^ 63 <=? z) && (z <? 2 ^ 63))%bool then Ok (SInt z)
      else Raise OverflowError
  | PFloat f => Ok (sql_real f)
  | PStr s => if existsb is_surrogate s then Raise UnicodeEncodeError else Ok (SText s)
  | PList _ | PDict _ => Raise ProgrammingError
  end.

Fixpoint bind_params (vs : list pyval) : result (list sqlval) :=
  match vs with
  | [] => Ok []
  | v :: rest => x ← bind_param v; xs ← bind_params rest; Ok (x :: xs)
  end.

(** Text that SQLite reads as a number when it lands in a REAL column:
    blanks, a sign, digits with an optional point, an optional exponent,
    blanks. *)
Definition is_sql_space (c : N) : bool := (in_range 9 13 c || N.eqb c 32)%bool.

Fixpoint span_digits (s : str) : str * str :=
  match s with
  | c :: rest =>
      if is_digit c then let '(ds, r) := span_digits rest in (c :: ds, r)
      else ([], s)
  | [] => ([], [])
  end.

Definition N_of_digits (ds : str) : N :=
  fold_left (fun acc d => (10 * acc + (d - 48))%N) ds 0%N.

Fixpoint skip_sql_space (s : str) : str :=
  match s with
  | c :: rest => if is_sql_space c then skip_sql_space rest else s
  | [] => []
  end.

Definition take_sign (s : str) : bool * str :=
  match s with
  | 45%N :: rest => (true, rest)
  | 43%N :: rest => (false, rest)
  | _ => (false, s)
  end.

Definition numeric_text (s : str) : option float :=
  let '(neg, s1) := take_sign (skip_sql_space s) in
  let '(ip, s2) := span_digits s1 in
  let '(fp, s3) := match s2 with
                   | 46%N :: rest => span_digits rest
                   | _ => ([], s2)
                   end in
  match ip ++ fp with
  | [] => None
  | ds =>
      let finish (ex : Z) (tail : str) :=
        match skip_sql_space tail with
        | [] => Some (mk_float neg (N_of_digits ds) (ex - Z.of_nat (length fp)))
        | _ => None
        end in
      match s3 with
      | c :: rest =>
          if (N.eqb c 101 || N.eqb c 69)%bool then
            let '(eneg, s4) := take_sign rest in
            let '(ed, s5) := span_digits s4 in
            match ed with
            | [] => None
            | _ => finish (if eneg then - Z.of_N (N_of_digits ed)
                           else Z.of_N (N_of_digits ed)) s5
            end
          else finish 0 s3
      | [] => finish 0 s3
      end
  end.

(** The column types the two CREATE TABLE statements of the source use. *)
Inductive coltype :=
| INTEGER_PRIMARY_KEY_AUTOINCREMENT
| TEXT
| REAL
| REAL_NOT_NULL.

(** REAL affinity turns integers, and text that spells a number, into
    floating point.  TEXT affinity leaves text and NULL alone; the one TEXT
    column of the source only ever receives a [str] (see
    [save_station_data]: [sanitize] comes first), so the rendering of a
    number as text is not needed and the cell is kept as it is. *)
Definition apply_affinity (ty : coltype) (v : sqlval) : sqlval :=
  match ty, v with
  | (REAL | REAL_NOT_NULL), SInt z => sql_real (float_of_Z z)
  | (REAL | REAL_NOT_NULL), SText s =>
      match numeric_text s with
      | Some f => sql_real f
      | None => SText s
      end
  | _, _ => v
  end.

Definition is_null (v : sqlval) : bool :=
  match v with
  | SNull => true
  | _ => false
  end.

Definition notnull (ty : coltype) : bool :=
  match ty with
  | REAL_NOT_NULL => true
  | _ => false
  end.

(** ** The storage medium: SQLite tables

    A row has its rowid (the [id INTEGER PRIMARY KEY AUTOINCREMENT] column
    is an alias of it) and one cell per other column.  A table keeps its
    declared columns, its rows in insertion order and the largest rowid it
    ever handed out (its line in [sqlite_sequence]). *)

Record row := { rowid : Z; cells : gmap (list N) sqlval }.

Record table := {
  t_schema : list (list N * coltype);
  t_rows : list row;
  t_seq : Z
}.

Inductive journal := DELETE | WAL.

Record database := { journal_mode : journal; tables : gmap (list N) table }.

(** Table names are case-insensitive (ASCII). *)
Definition fold_case (s : str) : str :=
  map (fun c => if is_upper c then (c + 32)%N else c) s.

Definition id_start (c : N) : bool :=
  (is_lower c || is_upper c || N.eqb c underscore || N.leb 128 c)%bool.

Definition id_char (c : N) : bool :=
  (id_start c || is_digit c || N.eqb c 36)%bool.

Definition reserved_prefix : str := py "sqlite_".

Fixpoint starts_with (p s : str) : bool :=
  match p, s with
  | [], _ => true
  | a :: p', b :: s' => (N.eqb a b && starts_with p' s')%bool
  | _ :: _, [] => false
  end.

(** The text interpolated where a statement wants a table name, as the
    SQLite tokenizer reads it: one bare identifier, or a syntax error.  The
    source interpolates only what [sanitize] returned, followed by [_data]:
    letters, digits, underscores, hyphens and a possible newline; a hyphen or
    a blank ends the identifier, a leading digit starts a number.  No name
    ending in [_data] is an SQL keyword. *)
Definition sql_identifier (text : str) : result str :=
  match text with
  | c :: rest =>
      if (id_start c && forallb id_char rest)%bool then Ok (fold_case text)
      else Raise OperationalError
  | [] => Raise OperationalError
  end.

Definition has_column (schema : list (list N * coltype)) (c : str) : bool :=
  existsb (fun d => str_eqb c (fst d)) schema.

Fixpoint assoc (c : str) (given : list (list N * sqlval)) : option sqlval :=
  match given with
  | [] => None
  | (c', v) :: rest => if str_eqb c c' then Some v else assoc c rest
  end.

(** The cells of a new row: a column named in the statement gets its
    parameter under the column's affinity, any other column NULL; NOT NULL is
    checked. *)
Fixpoint build_cells (schema : list (list N * coltype)) (given : list (list N * sqlval))
  : result (gmap (list N) sqlval) :=
  match schema with
  | [] => Ok ∅
  | (c, INTEGER_PRIMARY_KEY_AUTOINCREMENT) :: rest => build_cells rest given
  | (c, ty) :: rest =>
      let v := match assoc c given with
               | Some v => apply_affinity ty v
               | None => SNull
               end in
      if (notnull ty && is_null v)%bool then Raise IntegrityError
      else cs ← build_cells rest given; Ok (<[c := v]> cs)
  end.

(** The table with one more row, under the next rowid. *)
Definition append_row (t : table) (cs : gmap (list N) sqlval) : table :=
  {| t_schema := t_schema t;
     t_rows := t_rows t ++ [{| rowid := t_seq t + 1; cells := cs |}];
     t_seq := t_seq t + 1 |}.

(** [INSERT INTO name (cols) VALUES (?, ...)]: the statement is prepared
    (name and columns resolved), the parameters are bound, the row is built
    and appended. *)
Definition sql_insert (name : str) (cols : list str) (params : list pyval)
    (tabs : gmap (list N) table) : result (gmap (list N) table) :=
  key ← sql_identifier name;
  match tabs !! key with
  | None => Raise OperationalError
  | Some t =>
      if negb (forallb (has_column (t_schema t)) cols) then Raise OperationalError
      else
        vals ← bind_params params;
        cs ← build_cells (t_schema t) (combine cols vals);
        Ok (<[key := append_row t cs]> tabs)
  end.

(** [CREATE TABLE IF NOT EXISTS name (schema)]. *)
Definition sql_create_if_not_exists (name : str) (schema : list (list N * coltype))
    (tabs : gmap (list N) table) : result (gmap (list N) table) :=
  key ← sql_identifier name;
  if starts_with reserved_prefix key then Raise OperationalError
  else match tabs !! key with
       | Some _ => Ok tabs
       | None => Ok (<[key := {| t_schema := schema; t_rows := []; t_seq := 0 |}]> tabs)
       end.

(** [ORDER BY id DESC]: insertion sort on the rowid, largest first. *)
Fixpoint insert_desc (r : row) (sorted : list row) : list row :=
  match sorted with
  | [] => [r]
  | x :: rest => if rowid x <=? rowid r then r :: sorted else x :: insert_desc r rest
  end.

Definition order_by_id_desc (rows : list row) : list row :=
  fold_right insert_desc [] rows.

(** [LIMIT ?]: a negative bound means no bound. *)
Definition sql_limit {A} (limit : Z) (rows : list A) : list A :=
  if limit <? 0 then rows else firstn (Z.to_nat limit) rows.

Definition column_value (schema : list (list N * coltype)) (r : row) (c : str) : sqlval :=
  match find (fun d => str_eqb c (fst d)) schema with
  | Some (_, INTEGER_PRIMARY_KEY_AUTOINCREMENT) => SInt (rowid r)
  | _ => default SNull (cells r !! c)
  end.

(** [SELECT cols FROM name ORDER BY id DESC LIMIT ?]. *)
Definition sql_select_latest (cols : list str) (name : str) (limit : Z)
    (tabs : gmap (list N) table) : result (list (list sqlval)) :=
  key ← sql_identifier name;
  match tabs !! key with
  | None => Raise OperationalError
  | Some t =>
      if negb (forallb (has_column (t_schema t)) (py "id" :: cols))
      then Raise OperationalError
      else if negb ((- 2 ^ 63 <=? limit) && (limit <? 2 ^ 63))%bool
      then Raise OverflowError
      else Ok (map (fun r => map (column_value (t_schema t) r) cols)
                   (sql_limit limit (order_by_id_desc (t_rows t))))
  end.

(** ** Connections and transactions

    A function of the source opens its own connection.  While it runs, the
    world is the database on disk and, once a statement has written, the
    connection's open transaction: its private view of the tables.  What
    other connections read is the disk.  The monad threads the world and
    stops at the first exception. *)

Record world := { disk : database; txn : option (gmap (list N) table) }.

Definition conn (A : Type) : Type := world -> result A * world.

#[export] Instance conn_ret : MRet conn := fun _ a w => (Ok a, w).
#[export] Instance conn_bind : MBind conn := fun _ _ k m w =>
  match m w with
  | (Ok a, w') => k a w'
  | (Raise e, w') => (Raise e, w')
  end.

(** A pure step that may raise. *)
Definition lift {A} (r : result A) : conn A := fun w => (r, w).

(** What the connection sees. *)
Definition view (w : world) : gmap (list N) table :=
  match txn w with
  | Some tabs => tabs
  | None => tables (disk w)
  end.

(** [sqlite3.connect(path)]: nothing is read or written yet. *)
Definition connect : conn unit := mret tt.

Definition pragma_journal_mode_wal : conn unit := fun w =>
  (Ok tt, {| disk := {| journal_mode := WAL; tables := tables (disk w) |}; txn := txn w |}).

(** An INSERT opens the transaction if none is open and writes in it; a
    statement that fails writes nothing. *)
Definition execute_insert (name : str) (cols : list str) (params : list pyval) : conn unit :=
  fun w =>
    match sql_insert name cols params (view w) with
    | Ok tabs => (Ok tt, {| disk := disk w; txn := Some tabs |})
    | Raise e => (Raise e, w)
    end.

(** A CREATE TABLE joins the open transaction; without one it takes effect
    at once. *)
Definition execute_create (name : str) (schema : list (list N * coltype)) : conn unit :=
  fun w =>
    match sql_create_if_not_exists name schema (view w) with
    | Ok tabs =>
        match txn w with
        | Some _ => (Ok tt, {| disk := disk w; txn := Some tabs |})
        | None => (Ok tt, {| disk := {| journal_mode := journal_mode (disk w);
                                         tables := tabs |};
                             txn := None |})
        end
    | Raise e => (Raise e, w)
    end.

Definition execute_select_latest (cols : list str) (name : str) (limit : Z)
  : conn (list (list sqlval)) :=
  fun w => (sql_select_latest cols name limit (view w), w).

Definition commit : conn unit := fun w =>
  match txn w with
  | Some tabs => (Ok tt, {| disk := {| journal_mode := journal_mode (disk w);
                                        tables := tabs |};
                            txn := None |})
  | None => (Ok tt, w)
  end.

(** Closing a connection drops what it did not commit. *)
Definition close : conn unit := fun w => (Ok tt, {| disk := disk w; txn := None |}).

(** A call of one of the source's functions on the database [db]: the
    function runs on a connection of its own, and when it returns or raises
    the connection is gone; only committed writes are on disk.  (A function
    that raises leaves its connection unclosed; what it did not commit is
    rolled back when the run time finalises the connection.  How long a later
    writer waits for that is not modelled.) *)
Definition call {A} (f : conn A) (db : database) : result A * database :=
  let '(r, w) := f {| disk := db; txn := None |} in (r, disk w).

(** ** Storage engine *)

Definition weather_data : str := py "weather_data".
Definition k_id : str := py "id".
Definition k_station_id : str := py "station_id".
Definition k_timestamp : str := py "timestamp".
Definition k_temperature : str := py "temperature".
Definition k_humidity : str := py "humidity".
Definition k_wind : str := py "wind".

Definition global_schema : list (list N * coltype) :=
  [ (k_id, INTEGER_PRIMARY_KEY_AUTOINCREMENT);
    (k_station_id, TEXT);
    (k_timestamp, REAL);
    (k_temperature, REAL);
    (k_humidity, REAL);
    (k_wind, REAL) ].

Definition station_schema : list (list N * coltype) :=
  [ (k_id, INTEGER_PRIMARY_KEY_AUTOINCREMENT);
    (k_timestamp, REAL_NOT_NULL);
    (k_temperature, REAL);
    (k_humidity, REAL);
    (k_wind, REAL) ].

Definition global_columns : list (list N) :=
  [k_station_id; k_timestamp; k_temperature; k_humidity; k_wind].

Definition station_columns : list (list N) :=
  [k_timestamp; k_temperature; k_humidity; k_wind].

Definition get_db : conn unit :=
  connect;; pragma_journal_mode_wal.

Definition init_database : conn unit :=
  get_db;;
  execute_create weather_data global_schema;;
  commit;;
  close.

Definition save_station_data (data : pyval) : conn unit :=
  sid ← lift (subscript data k_station_id);
  station ← lift (sanitize sid);
  let table := station ++ py "_data" in
  get_db;;
  a1 ← lift (subscript data k_station_id);
  a2 ← lift (subscript data k_timestamp);
  a3 ← lift (subscript data k_temperature);
  a4 ← lift (subscript data k_humidity);
  a5 ← lift (subscript data k_wind);
  execute_insert weather_data global_columns [a1; a2; a3; a4; a5];;
  execute_create table station_schema;;
  b1 ← lift (subscript data k_timestamp);
  b2 ← lift (subscript data k_temperature);
  b3 ← lift (subscript data k_wind);
  b4 ← lift (subscript data k_humidity);
  execute_insert table station_columns [b1; b2; b3; b4];;
  commit;;
  close.

(** What [fetchall] hands back for a cell. *)
Definition fetch (v : sqlval) : pyval :=
  match v with
  | SNull => PNone
  | SInt z => PInt z
  | SReal f => PFloat f
  | SText s => PStr s
  end.

Definition get_latest_data (limit : Z) : conn (list (list pyval)) :=
  connect;;
  rows ← execute_select_latest global_columns weather_data limit;
  close;;
  mret (map (map fetch) rows).

(** ** [json.loads]

    The decoder on a [str]: JSON with Python's extensions ([NaN],
    [Infinity], [-Infinity]), strict about control characters in strings.
    [None] stands for [json.JSONDecodeError]. *)

Definition is_json_ws (c : N) : bool :=
  (N.eqb c 32 || N.eqb c 9 || N.eqb c 10 || N.eqb c 13)%bool.

Fixpoint skip_ws (s : str) : str :=
  match s with
  | c :: rest => if is_json_ws c then skip_ws rest else s
  | [] => []
  end.

Definition hex_value (c : N) : option N :=
  if is_digit c then Some (c - 48)%N
  else if in_range 97 102 c then Some (c - 87)%N
  else if in_range 65 70 c then Some (c - 55)%N
  else None.

Definition hex4 (a b c d : N) : option N :=
  x1 ← hex_value a; x2 ← hex_value b; x3 ← hex_value c; x4 ← hex_value d;
  Some (((x1 * 16 + x2) * 16 + x3) * 16 + x4)%N.

(** The one-letter escapes: quote, backslash, slash, b, f, n, r, t. *)
Definition simple_escape (c : N) : option N :=
  if N.eqb c 34 then Some 34%N
  else if N.eqb c 92 then Some 92%N
  else if N.eqb c 47 then Some 47%N
  else if N.eqb c 98 then Some 8%N
  else if N.eqb c 102 then Some 12%N
  else if N.eqb c 110 then Some 10%N
  else if N.eqb c 114 then Some 13%N
  else if N.eqb c 116 then Some 9%N
  else None.

(** The low half of a surrogate pair written as a second [\uXXXX]. *)
Definition low_surrogate_escape (s : str) : option (N * str) :=
  match s with
  | 92%N :: 117%N :: a :: b :: c :: d :: rest =>
      lo ← hex4 a b c d;
      if in_range 56320 57343 lo then Some (lo, rest) else None
  | _ => None
  end.

(** The body of a string literal, after the opening quote, up to and
    without the closing quote. *)
Fixpoint scan_string (fuel : nat) (s : str) : option (list N * list N) :=
  match fuel with
  | O => None
  | S fuel' =>
      match s with
      | [] => None
      | 34%N :: rest => Some ([], rest)
      | 92%N :: 117%N :: a :: b :: c :: d :: rest =>
          hi ← hex4 a b c d;
          match (if in_range 55296 56319 hi then low_surrogate_escape rest else None) with
          | Some (lo, rest') =>
              '(body, tail) ← scan_string fuel' rest';
              Some ((65536 + (hi - 55296) * 1024 + (lo - 56320))%N :: body, tail)
          | None =>
              '(body, tail) ← scan_string fuel' rest;
              Some (hi :: body, tail)
          end
      | 92%N :: e :: rest =>
          c ← simple_escape e;
          '(body, tail) ← scan_string fuel' rest;
          Some (c :: body, tail)
      | c :: rest =>
          if (N.ltb c 32 || N.eqb c 92)%bool then None
          else '(body, tail) ← scan_string fuel' rest; Some (c :: body, tail)
      end
  end.

(** A number: an optional minus, then 0 or a digit string without leading
    zero, then optionally a point with digits, then optionally an exponent;
    an int without fraction and exponent, a float otherwise. *)
Definition scan_number (s : str) : option (pyval * list N) :=
  let '(neg, s1) := match s with
                    | 45%N :: rest => (true, rest)
                    | _ => (false, s)
                    end in
  '(ip, s2) ← match s1 with
              | 48%N :: rest => Some ([48%N], rest)
              | c :: _ => if is_digit c then Some (span_digits s1) else None
              | [] => None
              end;
  let '(fp, s3) := match s2 with
                   | 46%N :: rest =>
                       match span_digits rest with
                       | ([], _) => ([], s2)
                       | (ds, tail) => (ds, tail)
                       end
                   | _ => ([], s2)
                   end in
  let '(ex, s4) := match s3 with
                   | c :: rest =>
                       if (N.eqb c 101 || N.eqb c 69)%bool then
                         let '(eneg, tail) := take_sign rest in
                         match span_digits tail with
                         | ([], _) => (None, s3)
                         | (ds, tail') =>
                             (Some (if eneg then - Z.of_N (N_of_digits ds)
                                    else Z.of_N (N_of_digits ds)), tail')
                         end
                       else (None, s3)
                   | [] => (None, s3)
                   end in
  match fp, ex with
  | [], None =>
      Some (PInt (if neg then - Z.of_N (N_of_digits ip) else Z.of_N (N_of_digits ip)), s4)
  | _, _ =>
      Some (PFloat (mk_float neg (N_of_digits (ip ++ fp))
                      (default 0 ex - Z.of_nat (length fp))), s4)
  end.

Definition strip_prefix (p s : str) : option str :=
  if starts_with p s then Some (skipn (length p) s) else None.

Fixpoint parse_value (fuel : nat) (s : str) : option (pyval * list N) :=
  match fuel with
  | O => None
  | S fuel' =>
      match s with
      | 34%N :: rest =>
          '(body, tail) ← scan_string (S (length rest)) rest; Some (PStr body, tail)
      | 123%N :: rest =>
          match skip_ws rest with
          | 125%N :: tail => Some (PDict [], tail)
          | members => parse_members fuel' members []
          end
      | 91%N :: rest =>
          match skip_ws rest with
          | 93%N :: tail => Some (PList [], tail)
          | elements => parse_elements fuel' elements []
          end
      | _ =>
          match strip_prefix (py "null") s, strip_prefix (py "true") s,
                strip_prefix (py "false") s, strip_prefix (py "NaN") s,
                strip_prefix (py "Infinity") s, strip_prefix (py "-Infinity") s with
          | Some tail, _, _, _, _, _ => Some (PNone, tail)
          | _, Some tail, _, _, _, _ => Some (PBool true, tail)
          | _, _, Some tail, _, _, _ => Some (PBool false, tail)
          | _, _, _, Some tail, _, _ => Some (PFloat FNaN, tail)
          | _, _, _, _, Some tail, _ => Some (PFloat (FInf false), tail)
          | _, _, _, _, _, Some tail => Some (PFloat (FInf true), tail)
          | _, _, _, _, _, _ => scan_number s
          end
      end
  end
with parse_elements (fuel : nat) (s : str) (acc : list pyval) : option (pyval * list N) :=
  match fuel with
  | O => None
  | S fuel' =>
      '(v, r) ← parse_value fuel' s;
      match skip_ws r with
      | 93%N :: tail => Some (PList (rev (v :: acc)), tail)
      | 44%N :: tail => parse_elements fuel' (skip_ws tail) (v :: acc)
      | _ => None
      end
  end
with parse_members (fuel : nat) (s : str) (acc : list (list N * pyval))
  : option (pyval * list N) :=
  match fuel with
  | O => None
  | S fuel' =>
      match s with
      | 34%N :: rest =>
          '(key, r1) ← scan_string (S (length rest)) rest;
          match skip_ws r1 with
          | 58%N :: r2 =>
              '(v, r3) ← parse_value fuel' (skip_ws r2);
              let acc' := dict_set key v acc in
              match skip_ws r3 with
              | 125%N :: tail => Some (PDict acc', tail)
              | 44%N :: tail => parse_members fuel' (skip_ws tail) acc'
              | _ => None
              end
          | _ => None
          end
      | _ => None
      end
  end.

Definition json_loads (s : str) : option pyval :=
  match parse_value (2 * length s + 2) (skip_ws s) with
  | Some (v, rest) =>
      match skip_ws rest with
      | [] => Some v
      | _ => None
      end
  | None => None
  end.

(** ** [bytes.decode("utf-8", errors=...)]

    The decoder reads one code point at a time.  Where the bytes are not
    UTF-8, the strict handler raises; the replace handler writes U+FFFD for
    the longest prefix of the bad sequence that could start a code point and
    goes on with the next byte. *)

Inductive error_handler := strict | replace.

Definition replacement_character : N := 65533%N.

Definition continuation (b : N) : bool := in_range 128 191 b.

(** The second byte allowed after a three- or four-byte lead. *)
Definition second_ok (lead b : N) : bool :=
  if N.eqb lead 224 then in_range 160 191 b
  else if N.eqb lead 237 then in_range 128 159 b
  else if N.eqb lead 240 then in_range 144 191 b
  else if N.eqb lead 244 then in_range 128 143 b
  else continuation b.

Definition on_error (errors : error_handler) (rest : result (list N)) : result (list N) :=
  match errors with
  | strict => Raise UnicodeDecodeError
  | replace => text ← rest; Ok (replacement_character :: text)
  end.

Definition emit (c : N) (rest : result (list N)) : result (list N) :=
  text ← rest; Ok (c :: text).

Fixpoint bytes_decode (errors : error_handler) (data : bytes) : result (list N) :=
  match data with
  | [] => Ok []
  | b0 :: t0 =>
      let c0 := Byte.to_N b0 in
      if N.ltb c0 128 then emit c0 (bytes_decode errors t0)
      else if in_range 194 223 c0 then
        match t0 with
        | b1 :: t1 =>
            let c1 := Byte.to_N b1 in
            if continuation c1
            then emit ((c0 - 192) * 64 + (c1 - 128))%N (bytes_decode errors t1)
            else on_error errors (bytes_decode errors t0)
        | [] => on_error errors (bytes_decode errors t0)
        end
      else if in_range 224 239 c0 then
        match t0 with
        | b1 :: t1 =>
            let c1 := Byte.to_N b1 in
            if second_ok c0 c1 then
              match t1 with
              | b2 :: t2 =>
                  let c2 := Byte.to_N b2 in
                  if continuation c2
                  then emit (((c0 - 224) * 64 + (c1 - 128)) * 64 + (c2 - 128))%N
                            (bytes_decode errors t2)
                  else on_error errors (bytes_decode errors t1)
              | [] => on_error errors (bytes_decode errors t1)
              end
            else on_error errors (bytes_decode errors t0)
        | [] => on_error errors (bytes_decode errors t0)
        end
      else if in_range 240 244 c0 then
        match t0 with
        | b1 :: t1 =>
            let c1 := Byte.to_N b1 in
            if second_ok c0 c1 then
              match t1 with
              | b2 :: t2 =>
                  let c2 := Byte.to_N b2 in
                  if continuation c2 then
                    match t2 with
                    | b3 :: t3 =>
                        let c3 := Byte.to_N b3 in
                        if continuation c3
                        then emit ((((c0 - 240) * 64 + (c1 - 128)) * 64 + (c2 - 128)) * 64
                                   + (c3 - 128))%N
                                  (bytes_decode errors t3)
                        else on_error errors (bytes_decode errors t2)
                    | [] => on_error errors (bytes_decode errors t2)
                    end
                  else on_error errors (bytes_decode errors t1)
              | [] => on_error errors (bytes_decode errors t1)
              end
            else on_error errors (bytes_decode errors t0)
        | [] => on_error errors (bytes_decode errors t0)
        end
      else on_error errors (bytes_decode errors t0)
  end.

(** ** [str.strip()] and the whitespace it removes *)

Definition py_isspace (c : N) : bool :=
  (in_range 9 13 c || in_range 28 32 c || N.eqb c 133 || N.eqb c 160
   || N.eqb c 5760 || in_range 8192 8202 c || in_range 8232 8233 c
   || N.eqb c 8239 || N.eqb c 8287 || N.eqb c 12288)%bool.

Fixpoint lstrip (s : str) : str :=
  match s with
  | c :: rest => if py_isspace c then lstrip rest else s
  | [] => []
  end.

Definition rstrip (s : str) : str := rev (lstrip (rev s)).

Definition strip (s : str) : str := rstrip (lstrip s).

(** ** The server: database and log *)

Inductive log_entry :=
| INFO_client_connected
| INFO_client_disconnected
| INFO_saved (station temp : pyval)
| WARNING_invalid_json (message : list N)
| WARNING_missing_keys (message : list N)
| WARNING_timed_out
| WARNING_oversized
| ERROR_database_save (e : exn)
| ERROR_client (e : exn).

Record server := { db : database; log : list log_entry }.

Definition logging (entry : log_entry) (s : server) : server :=
  {| db := db s; log := log s ++ [entry] |}.

Definition required : list str :=
  [k_station_id; k_timestamp; k_temperature; k_humidity; k_wind].

(** ** Message validator: [process_message]

    The result is [Raise e] for an exception that leaves the function. *)
Definition process_message (message : str) (s : server) : result unit * server :=
  match json_loads message with
  | None => (Ok tt, logging (WARNING_invalid_json message) s)
  | Some data =>
      match issubset required data with
      | Raise e => (Raise e, s)
      | Ok false => (Ok tt, logging (WARNING_missing_keys message) s)
      | Ok true =>
          match call (save_station_data data) (db s) with
          | (Ok _, db') =>
              match subscript data k_station_id, subscript data k_temperature with
              | Ok station, Ok temp =>
                  (Ok tt, logging (INFO_saved station temp) {| db := db'; log := log s |})
              | Raise e, _ | _, Raise e =>
                  (Ok tt, logging (ERROR_database_save e) {| db := db'; log := log s |})
              end
          | (Raise e, db') =>
              (Ok tt, logging (ERROR_database_save e) {| db := db'; log := log s |})
          end
      end
  end.

(** ** Connection handler: [handle_client]

    What [reader.readline()] under [asyncio.wait_for(..., timeout=60)] can
    do each time round the loop: return a line (with its newline; less at the
    end of the stream, nothing once the peer has closed), time out, or raise
    (a reset connection, a line longer than the stream's buffer limit). *)
Inductive read_event :=
| ReadLine (data : list byte)
| ReadTimeout
| ReadError (e : exn).

Inductive connection := Reading | Closed.

Definition max_message : nat := 2048.

(** The [finally] block. *)
Definition disconnect (s : server) : connection * server :=
  (Closed, logging INFO_client_disconnected s).

Fixpoint read_loop (events : list read_event) (s : server) : connection * server :=
  match events with
  | [] => (Reading, s)
  | ReadTimeout :: _ => disconnect (logging WARNING_timed_out s)
  | ReadError e :: _ => disconnect (logging (ERROR_client e) s)
  | ReadLine [] :: _ => disconnect s
  | ReadLine data :: rest =>
      match bytes_decode replace data with
      | Raise e => disconnect (logging (ERROR_client e) s)
      | Ok text =>
          let message := strip text in
          if (max_message <? length message)%nat
          then read_loop rest (logging WARNING_oversized s)
          else match process_message message s with
               | (Ok _, s') => read_loop rest s'
               | (Raise e, s') => disconnect (logging (ERROR_client e) s')
               end
      end
  end.

Definition handle_client (events : list read_event) (s : server) : connection * server :=
  read_loop events (logging INFO_client_connected s).

(** ** Printing a number with two decimals: the format [.2f]

    A float of the model is the decimal numeral that denotes it.  The
    format prints the double itself: the numeral is rounded to the nearest
    double (ties to even, as [float()] does), and the exact value of that
    double to two decimals (ties to even again). *)

(** [n / d] rounded to the nearest integer, ties to even; [0 <= n], [0 < d]. *)
Definition round_half_even (n d : Z) : Z :=
  let q := n / d in
  let r := n mod d in
  if 2 * r <? d then q
  else if d <? 2 * r then q + 1
  else if Z.even q then q else q + 1.

(** The fraction [n / d] divided by [2 ^ k]. *)
Definition scaled (n d k : Z) : Z * Z :=
  if 0 <=? k then (n, d * 2 ^ k) else (n * 2 ^ (- k), d).

(** The double nearest to [m * 10 ^ e], as [q * 2 ^ k] with [q <= 2 ^ 53]
    and [-1074 <= k]; [None] when it is beyond the largest double. *)
Definition nearest_double (m : N) (e : Z) : option (Z * Z) :=
  if N.eqb m 0 then Some (0, 0)
  else
    let n := if 0 <=? e then Z.of_N m * 10 ^ e else Z.of_N m in
    let d := if 0 <=? e then 1 else 10 ^ (- e) in
    let k1 := Z.log2 n - Z.log2 d - 53 in
    let '(n1, d1) := scaled n d k1 in
    let k2 := if 2 ^ 53 <=? n1 / d1 then k1 + 1 else k1 in
    let k := Z.max k2 (-1074) in
    let '(n2, d2) := scaled n d k in
    let q := round_half_even n2 d2 in
    if ((971 <? k) || ((k =? 971) && (q =? 2 ^ 53)))%bool then None
    else Some (q, k).

Fixpoint decimal_digits (fuel : nat) (n : N) (acc : list N) : list N :=
  match fuel with
  | O => acc
  | S fuel' =>
      let acc' := (48 + n mod 10)%N :: acc in
      if N.eqb (n / 10) 0 then acc' else decimal_digits fuel' (n / 10)%N acc'
  end.

(** A natural number in decimal. *)
Definition decimal (n : N) : list N := decimal_digits (S (N.size_nat n)) n [].

(** The double [q * 2 ^ k] with two decimals. *)
Definition fixed2 (neg : bool) (q k : Z) : list N :=
  let '(n, d) := scaled (q * 100) 1 (- k) in
  let r := Z.to_N (round_half_even n d) in
  (if neg then [45%N] else []) ++ decimal (r / 100)
    ++ [46%N; (48 + (r mod 100) / 10)%N; (48 + r mod 10)%N].

(** [format(f, ".2f")] for a float. *)
Definition format_2f (f : float) : list N :=
  match f with
  | FNaN => py "nan"
  | FInf neg => (if neg then [45%N] else []) ++ py "inf"
  | FDec neg m e =>
      match nearest_double m e with
      | Some (q, k) => fixed2 neg q k
      | None => (if neg then [45%N] else []) ++ py "inf"
      end
  end.

(** ** Read endpoint: [handle_web] *)

(** [format(v, ".2f")]: a float, or an int or a bool through [float(v)]; a
    [str] has no format code [f], and the other values take no format
    string at all. *)
Definition format_fixed2 (v : pyval) : result str :=
  match v with
  | PFloat f => Ok (format_2f f)
  | PInt z =>
      match nearest_double (Z.abs_N z) 0 with
      | Some (q, k) => Ok (fixed2 (z <? 0) q k)
      | None => Raise OverflowError
      end
  | PBool b => Ok (py (if b then "1.00" else "0.00"))
  | PStr _ => Raise ValueError
  | _ => Raise TypeError
  end.

(** The page is the table: one line per row, the location label in place of
    the station identifier, then the timestamp as the text the format [.2f]
    prints, then the three measurements.  [s.split] needs a [str].  The HTML
    around the cells is left out, and so is the printing of the three
    measurements, which the page shows as [str()] gives them. *)
Definition table_line (r : list pyval) : result (list N * list pyval) :=
  match r with
  | [s; ts; t; h; w] =>
      match s with
      | PStr station_id =>
          let location := extract_station_location station_id in
          match format_fixed2 ts with
          | Ok text => Ok (location, [PStr text; t; h; w])
          | Raise e => Raise e
          end
      | _ => Raise AttributeError
      end
  | _ => Raise ValueError
  end.

Fixpoint table_lines (rows : list (list pyval)) : result (list (list N * list pyval)) :=
  match rows with
  | [] => Ok []
  | r :: rest => l ← table_line r; ls ← table_lines rest; Ok (l :: ls)
  end.

Definition handle_web : conn (list (list N * list pyval)) :=
  rows ← get_latest_data 40;
  lift (table_lines rows).

(** ** Vocabulary of the properties *)

(** The database file before the first start. *)
Definition no_database : database := {| journal_mode := DELETE; tables := ∅ |}.

(** The global ledger as [init_database] creates it. *)
Definition fresh_global : table :=
  {| t_schema := global_schema; t_rows := []; t_seq := 0 |}.

Definition fresh_station : table :=
  {| t_schema := station_schema; t_rows := []; t_seq := 0 |}.

(** The key of the per-station table of a station. *)
Definition station_table (station : str) : str := fold_case (station ++ py "_data").

(** Rowids grow along the insertion order and stay below the table's
    sequence. *)
Definition ascending (t : table) : Prop :=
  StronglySorted (fun a b => rowid a < rowid b) (t_rows t) /\
  Forall (fun r => rowid r <= t_seq t) (t_rows t).

(** The storage states the server produces: the global ledger exists as
    declared, every other table is a per-station ledger. *)
Definition tables_ok (tabs : gmap (list N) table) : Prop :=
  (forall key t, tabs !! key = Some t -> ascending t) /\
  (forall key t, tabs !! key = Some t -> key <> weather_data ->
                 t_schema t = station_schema) /\
  (exists t, tabs !! weather_data = Some t /\ t_schema t = global_schema).

Definition storage_ok (d : database) : Prop := tables_ok (tables d).

(** What the server can do to the database, from its first start on. *)
Inductive reachable : database -> Prop :=
| reach_start : reachable (snd (call init_database no_database))
| reach_restart d : reachable d -> reachable (snd (call init_database d))
| reach_save d data : reachable d -> reachable (snd (call (save_station_data data) d)).

(** The rows of a table in insertion order, none if the table is absent. *)
Definition rows_in (tabs : gmap (list N) table) (key : list N) : list row :=
  match tabs !! key with
  | Some t => t_rows t
  | None => []
  end.

Definition rows_of (d : database) (key : list N) : list row := rows_in (tables d) key.

(** A row of the global ledger as [get_latest_data] returns it. *)
Definition ledger_line (r : row) : list pyval :=
  map fetch (map (column_value global_schema r) global_columns).

(** The global ledger in insertion order. *)
Definition global_ledger (d : database) : list (list pyval) :=
  map ledger_line (rows_of d weather_data).

(** A Reading of the data model: an identifier and four real numbers. *)
Record reading := {
  station_id : list N;
  timestamp : float;
  temperature : float;
  humidity : float;
  wind : float
}.

(** The real number a decoded JSON number stands for: a finite float
    (zero as the one zero without sign), or an int that a double holds
    exactly. *)
Definition real_of (v : pyval) : option float :=
  match v with
  | PFloat (FDec neg m e) =>
      match sql_real (FDec neg m e) with
      | SReal x => Some x
      | _ => None
      end
  | PInt z =>
      if Z.abs z <=? 2 ^ 53
      then match sql_real (float_of_Z z) with
           | SReal x => Some x
           | _ => None
           end
      else None
  | _ => None
  end.

Definition field (data : pyval) (key : str) (x : float) : Prop :=
  exists v, subscript data key = Ok v /\ real_of v = Some x.

(** [data] is a decoded record that carries the Reading [r]. *)
Definition carries (data : pyval) (r : reading) : Prop :=
  subscript data k_station_id = Ok (PStr (station_id r)) /\
  field data k_timestamp (timestamp r) /\
  field data k_temperature (temperature r) /\
  field data k_humidity (humidity r) /\
  field data k_wind (wind r).

(** The four REAL cells of a new row. *)
Definition real_cells (b2 b3 hum wnd : sqlval) : gmap (list N) sqlval :=
  <[k_timestamp := b2]>
    (<[k_temperature := apply_affinity REAL b3]>
       (<[k_humidity := apply_affinity REAL hum]>
          (<[k_wind := apply_affinity REAL wnd]> ∅))).

(** The cells of a reading with the given humidity and wind columns. *)
Definition reading_cells (r : reading) (hum wnd : float) : gmap (list N) sqlval :=
  <[k_timestamp := SReal (timestamp r)]>
    (<[k_temperature := SReal (temperature r)]>
       (<[k_humidity := SReal hum]>
          (<[k_wind := SReal wnd]> ∅))).

(** The row the first INSERT of [save_station_data] writes. *)
Definition global_cells (r : reading) : gmap (list N) sqlval :=
  <[k_station_id := SText (station_id r)]> (reading_cells r (humidity r) (wind r)).

(** The row its second INSERT writes into a per-station table ... *)
Definition station_cells (r : reading) : gmap (list N) sqlval :=
  reading_cells r (wind r) (humidity r).

(** ... and into the global ledger, when that is the table the station's
    name leads to. *)
Definition misfiled_cells (r : reading) : gmap (list N) sqlval :=
  <[k_station_id := SNull]> (station_cells r).

(** The Reading as [get_latest_data] returns it. *)
Definition as_row (r : reading) : list pyval :=
  [PStr (station_id r); PFloat (timestamp r); PFloat (temperature r);
   PFloat (humidity r); PFloat (wind r)].

(** ** Sample data *)

(** A float given in tenths, as the sensors round their measurements. *)
Definition tenths (x : Z) : float := mk_float (x <? 0) (Z.abs_N x) (-1).

(** The record a station sends. *)
Definition record (station : list N) (ts t h w : float) : pyval :=
  PDict [ (k_station_id, PStr station);
          (k_timestamp, PFloat ts);
          (k_temperature, PFloat t);
          (k_humidity, PFloat h);
          (k_wind, PFloat w) ].

(** The database after the first start. *)
Definition started : database := snd (call init_database no_database).

(** Two readings of one station; the second carries the earlier
    timestamp. *)
Definition first_reading : pyval :=
  record (py "station01_coastal") (tenths 2000) (tenths 185) (tenths 550) (tenths 80).

Definition second_reading : pyval :=
  record (py "station01_coastal") (tenths 1000) (tenths 190) (tenths 560) (tenths 70).

Definition two_readings : database :=
  snd (call (save_station_data second_reading)
         (snd (call (save_station_data first_reading) started))).

(** The state [init_database] leaves. *)
Definition initialize (d : database) : database := snd (call init_database d).

(** A station identifier that ends in a newline, and a record with it. *)
Definition newline_station : list N := py "station01" ++ [newline].

Definition newline_reading : pyval :=
  record newline_station (tenths 2000) (tenths 185) (tenths 550) (tenths 80).

(** The same record as a frame; the newline is the JSON escape, a
    backslash and the letter n. *)
Definition newline_frame_text : string :=
  "{'station_id': 'station01\n', 'timestamp': 200.0, 'temperature': 18.5, 'humidity': 55.0, 'wind': 8.0}".

(** Records that fail further on: a hyphen in the name, no timestamp. *)
Definition hyphen_reading : pyval :=
  record (py "station-01") (tenths 2000) (tenths 185) (tenths 550) (tenths 80).

Definition null_timestamp_reading : pyval :=
  PDict [ (k_station_id, PStr (py "station01"));
          (k_timestamp, PNone);
          (k_temperature, PFloat (tenths 185));
          (k_humidity, PFloat (tenths 550));
          (k_wind, PFloat (tenths 80)) ].

Definition unsafe_reading : pyval :=
  record (py "station 01; --") (tenths 2000) (tenths 185) (tenths 550) (tenths 80).

(** The first reading as a Reading of the data model. *)
Definition first_reading_model : reading :=
  {| station_id := py "station01_coastal";
     timestamp := tenths 2000;
     temperature := tenths 185;
     humidity := tenths 550;
     wind := tenths 80 |}.

(** A reading of a station called [weather]. *)
Definition weather_reading : pyval :=
  record (py "weather") (tenths 2000) (tenths 185) (tenths 550) (tenths 80).

(** ** Sample frames *)

(** JSON text as bytes, written here with apostrophes where the text has
    double quotes. *)
Definition json_bytes (s : string) : list byte :=
  map (fun b => if Byte.eqb b x27 then x22 else b) (list_byte_of_string s).

(** A frame: the text and its newline. *)
Definition line (text : list byte) : list byte := text ++ [x0a].

Definition first_reading_text : list byte :=
  json_bytes "{'station_id': 'station01_coastal', 'timestamp': 200.0, 'temperature': 18.5, 'humidity': 55.0, 'wind': 8.0}".

(** The first reading followed by 3000 blanks: a line of more than 3000
    bytes. *)
Definition padded_frame : list byte :=
  line (first_reading_text ++ repeat x20 3000).

(** 3000 letters. *)
Definition long_frame : list byte := line (repeat x61 3000).

(** The record whose station identifier ends in a newline. *)
Definition newline_frame : list byte := line (json_bytes newline_frame_text).

(** A line that is a JSON number. *)
Definition number_frame : list byte := line (wire "5").

(** A record without [wind]. *)
Definition windless_frame : list byte :=
  line (json_bytes "{'station_id': 'station01_coastal', 'timestamp': 200.0, 'temperature': 18.5, 'humidity': 55.0}").


(** The server after its start, nothing logged yet. *)
Definition server_started : server := {| db := started; log := [] |}.



(** ** The sensor client: what it puts on the wire

    [msg_json.encode()] in [weather_station.py]: UTF-8, which has no code
    for a surrogate. *)

Definition byte_of (n : N) : byte := default x00 (Byte.of_N n).

Definition encode_char (c : N) : result (list byte) :=
  if N.ltb c 128 then Ok [byte_of c]
  else if N.ltb c 2048 then Ok [byte_of (192 + c / 64); byte_of (128 + c mod 64)]
  else if is_surrogate c then Raise UnicodeEncodeError
  else if N.ltb c 65536
  then Ok [byte_of (224 + c / 4096); byte_of (128 + (c / 64) mod 64);
           byte_of (128 + c mod 64)]
  else Ok [byte_of (240 + c / 262144); byte_of (128 + (c / 4096) mod 64);
           byte_of (128 + (c / 64) mod 64); byte_of (128 + c mod 64)].

Fixpoint str_encode (s : list N) : result (list byte) :=
  match s with
  | [] => Ok []
  | c :: rest => bs ← encode_char c; tail ← str_encode rest; Ok (bs ++ tail)
  end.


(** A decoded text of at most [k] characters. *)
Definition within (k : nat) (r : result (list N)) : Prop :=
  exists text, r = Ok text /\ (length text <= k)%nat.


(** Every table is still there, with the same columns and with its rows
    as the first rows. *)
Definition tables_extend (tabs tabs' : gmap (list N) table) : Prop :=
  forall key t, tabs !! key = Some t ->
  exists t' more,
    tabs' !! key = Some t' /\ t_schema t' = t_schema t /\ t_rows t' = t_rows t ++ more.

Definition extends (d d' : database) : Prop := tables_extend (tables d) (tables d').


(** The rowids of a table are 1, 2, ... in the order of its rows, and its
    sequence is their number. *)
Definition dense (t : table) : Prop :=
  t_seq t = Z.of_nat (length (t_rows t)) /\
  forall i r, t_rows t !! i = Some r -> rowid r = Z.of_nat i + 1.

Definition all_dense (tabs : gmap (list N) table) : Prop :=
  forall key t, tabs !! key = Some t -> dense t.



(** The entry of the [finally] block. *)
Definition is_disconnect (entry : log_entry) : bool :=
  match entry with
  | INFO_client_disconnected => true
  | _ => false
  end.

(** The line of the page for a Reading: the label, the timestamp with two
    decimals, the three measurements. *)
Definition page_line (r : reading) : list N * list pyval :=
  (extract_station_location (station_id r),
   [PStr (format_2f (timestamp r)); PFloat (temperature r); PFloat (humidity r);
    PFloat (wind r)]).

(** ** The sensor

    [extract_station_type] of the sensor script. *)

Section Sensor.

(** [str.lower]; lines 57 to 68 of the sensor use it on the station
    identifier. *)
Variable str_lower : list N -> list N.

Definition extract_station_type (station_id : list N) : list N :=
  let parts := split underscore (str_lower station_id) in
  if (1 <? length parts)%nat then List.last parts [] else py "normal".

End Sensor.



(** ** Messages within the limits of the JSON decoder

    The opening brackets and braces of a text: its arrays and objects nest
    no deeper. *)
Definition openings (s : list N) : nat :=
  length (filter (fun c => (N.eqb c 91 || N.eqb c 123)%bool) s).

(** A message of the length the handler passes on, whose arrays and
    objects nest less than 500 deep.  Past these limits [json.loads] raises
    what is not a JSONDecodeError (a RecursionError near a nesting of 1000,
    a ValueError for a numeral of more than 4300 digits); the model of the
    decoder has neither. *)
Definition plain_message (message : list N) : Prop :=
  (length message <= max_message)%nat /\ (openings message < 500)%nat.

(** * Properties *)

(** ** Lists of code points *)

Lemma split_not_nil (sep : N) (s : list N) : split sep s <> [].
Proof.
  destruct s as [|c rest]; simpl; [discriminate|].
  destruct (N.eqb c sep); [discriminate|].
  destruct (split sep rest); discriminate.
Qed.

Lemma split_without_separator (sep : N) (s : list N) :
  ~ In sep s -> split sep s = [s].
Proof.
  induction s as [|c rest IH]; simpl; intros Hnot; [reflexivity|].
  destruct (N.eqb_spec c sep) as [->|Hne].
  - exfalso. apply Hnot. now left.
  - rewrite IH; [reflexivity|]. intros Hin. apply Hnot. now right.
Qed.

(** With a separator in it, a string splits into two parts or more; the
    last part is what follows the final separator. *)
Lemma split_with_separator (sep : N) (s : list N) :
  In sep s ->
  (1 < length (split sep s))%nat /\
  exists before,
    s = before ++ sep :: List.last (split sep s) [] /\
    ~ In sep (List.last (split sep s) []).
Proof.
  induction s as [|c rest IH]; simpl; intros Hin; [contradiction|].
  destruct (N.eqb_spec c sep) as [->|Hne].
  - destruct (in_dec N.eq_dec sep rest) as [Hrest|Hrest].
    + destruct (IH Hrest) as (Hlen & before & Heq & Hlast).
      split; [simpl; lia|].
      exists (sep :: before).
      destruct (split sep rest) as [|p ps] eqn:Hs; [simpl in Hlen; lia|].
      change (List.last ([] :: p :: ps) []) with (List.last (p :: ps) []).
      split; [cbn [app]; f_equal; exact Heq | exact Hlast].
    + rewrite (split_without_separator _ _ Hrest). simpl.
      split; [lia|]. exists []. split; [reflexivity | exact Hrest].
  - destruct Hin as [Heq|Hrest]; [congruence|].
    destruct (IH Hrest) as (Hlen & before & Heq & Hlast).
    destruct (split sep rest) as [|p ps] eqn:Hs; [simpl in Hlen; lia|].
    destruct ps as [|q qs]; [simpl in Hlen; lia|].
    change (List.last ((c :: p) :: q :: qs) []) with (List.last (q :: qs) []).
    change (List.last (p :: q :: qs) []) with (List.last (q :: qs) []) in Heq, Hlast.
    split; [simpl; lia|].
    exists (c :: before). split; [cbn [app]; f_equal; exact Heq | exact Hlast].
Qed.
Lemma weather_data_identifier : sql_identifier weather_data = Ok weather_data.
Proof. reflexivity. Qed.

Lemma init_database_call (d : database) :
  call init_database d =
  (Ok tt, {| journal_mode := WAL;
             tables := match tables d !! weather_data with
                       | Some _ => tables d
                       | None => <[weather_data := fresh_global]> (tables d)
                       end |}).
Proof.
  unfold call, init_database, get_db, connect, pragma_journal_mode_wal,
    execute_create, commit, close, mbind, mret, conn_bind, conn_ret, view.
  cbn [txn disk tables journal_mode].
  unfold sql_create_if_not_exists. rewrite weather_data_identifier.
  cbn [mbind result_bind].
  change (starts_with reserved_prefix weather_data) with false. cbv iota.
  destruct (tables d !! weather_data); reflexivity.
Qed.

Lemma save_station_data_call (data : pyval) (d : database) :
  call (save_station_data data) d =
  match subscript data k_station_id with
  | Raise e => (Raise e, d)
  | Ok sid =>
    match sanitize sid with
    | Raise e => (Raise e, d)
    | Ok station =>
      let d1 := {| journal_mode := WAL; tables := tables d |} in
      match
        (a2 ← subscript data k_timestamp;
         a3 ← subscript data k_temperature;
         a4 ← subscript data k_humidity;
         a5 ← subscript data k_wind;
         t1 ← sql_insert weather_data global_columns [sid; a2; a3; a4; a5] (tables d);
         t2 ← sql_create_if_not_exists (station ++ py "_data") station_schema t1;
         sql_insert (station ++ py "_data") station_columns [a2; a3; a5; a4] t2)
      with
      | Ok t3 => (Ok tt, {| journal_mode := WAL; tables := t3 |})
      | Raise e => (Raise e, d1)
      end
    end
  end.
Proof.
  unfold call, save_station_data, get_db, connect, pragma_journal_mode_wal,
    execute_create, execute_insert, commit, close, lift, view,
    global_columns, station_columns.
  unfold mbind at 1, conn_bind. 
  destruct (subscript data k_station_id) as [sid|e]; [|reflexivity].
  unfold mbind at 1, conn_bind.
  destruct (sanitize sid) as [station|e]; [|reflexivity].
  unfold mbind, mret, conn_bind, conn_ret, result_bind.
  cbn [txn disk tables journal_mode].
  destruct (subscript data k_timestamp) as [a2|e]; [|reflexivity].
  destruct (subscript data k_temperature) as [a3|e]; [|reflexivity].
  destruct (subscript data k_humidity) as [a4|e]; [|reflexivity].
  destruct (subscript data k_wind) as [a5|e]; [|reflexivity].
  match goal with |- context [sql_insert ?a ?b ?c ?d] => destruct (sql_insert a b c d) as [t1|e] end; [|reflexivity].
  cbn [txn disk tables journal_mode].
  match goal with |- context [sql_create_if_not_exists ?a ?b ?c] => destruct (sql_create_if_not_exists a b c) as [t2|e] end; [|reflexivity].
  cbn [txn disk tables journal_mode].
  match goal with |- context [sql_insert ?a ?b ?c t2] => destruct (sql_insert a b c t2) as [t3|e] end; reflexivity.
Qed.

(** The four measurements are read from the record one after the other; a
    missing one ends the call, which [tac] then settles. *)
Ltac read_fields data tac :=
  destruct (subscript data k_timestamp) as [?a|]; [|tac];
  destruct (subscript data k_temperature) as [?a|]; [|tac];
  destruct (subscript data k_humidity) as [?a|]; [|tac];
  destruct (subscript data k_wind) as [?a|]; [|tac].

(** ** Statements of the storage medium *)

Lemma sql_insert_ok (name : list N) (cols : list (list N)) (params : list pyval)
    (tabs tabs' : gmap (list N) table) :
  sql_insert name cols params tabs = Ok tabs' ->
  exists key t vals cs,
    sql_identifier name = Ok key /\
    tabs !! key = Some t /\
    bind_params params = Ok vals /\
    build_cells (t_schema t) (combine cols vals) = Ok cs /\
    tabs' = <[key := append_row t cs]> tabs.
Proof.
  unfold sql_insert, mbind, result_bind.
  destruct (sql_identifier name) as [key|]; [|discriminate].
  destruct (tabs !! key) as [t|] eqn:Ht; [|discriminate].
  destruct (negb _); [discriminate|].
  destruct (bind_params params) as [vals|]; [|discriminate].
  destruct (build_cells _ _) as [cs|] eqn:Hcs; [|discriminate].
  intros [= <-]. exists key, t, vals, cs. repeat split; auto.
Qed.

Lemma sql_create_ok (name : list N) (schema : list (list N * coltype))
    (tabs tabs' : gmap (list N) table) :
  sql_create_if_not_exists name schema tabs = Ok tabs' ->
  exists key,
    sql_identifier name = Ok key /\
    ((exists t, tabs !! key = Some t) /\ tabs' = tabs \/
     tabs !! key = None /\
     tabs' = <[key := {| t_schema := schema; t_rows := []; t_seq := 0 |}]> tabs).
Proof.
  unfold sql_create_if_not_exists, mbind, result_bind.
  destruct (sql_identifier name) as [key|]; [|discriminate].
  destruct (starts_with _ _); [discriminate|].
  destruct (tabs !! key) as [t|] eqn:Ht; intros [= <-]; exists key; split; auto.
  left. split; [eauto | reflexivity].
Qed.

(** Appending under the next rowid keeps the rowids ascending. *)
Lemma ascending_append (t : table) (cs : gmap (list N) sqlval) :
  ascending t -> ascending (append_row t cs).
Proof.
  intros [Hsorted Hbound]. split; cbn [append_row t_rows t_seq].
  - induction Hsorted as [|r rows Hs IH Hr]; cbn [app].
    + repeat constructor.
    + apply Forall_cons_iff in Hbound as [Hr0 Hrows].
      constructor; [auto|].
      apply Forall_app. split; [exact Hr|].
      constructor; [cbn; lia | constructor].
  - apply Forall_app. split.
    + eapply Forall_impl; [exact Hbound|]. cbn. intros; lia.
    + constructor; [cbn; lia | constructor].
Qed.

Lemma ascending_fresh (schema : list (list N * coltype)) :
  ascending {| t_schema := schema; t_rows := []; t_seq := 0 |}.
Proof. split; constructor. Qed.

(** Rows that ascend along the list come out of [ORDER BY id DESC] in
    reverse. *)
Lemma insert_desc_smallest (r : row) (sorted : list row) :
  Forall (fun x => rowid r < rowid x) sorted ->
  insert_desc r sorted = sorted ++ [r].
Proof.
  induction 1 as [|x rest Hx _ IH]; cbn; [reflexivity|].
  destruct (Z.leb_spec (rowid x) (rowid r)); [lia|]. now rewrite IH.
Qed.

Lemma order_by_id_desc_ascending (rows : list row) :
  StronglySorted (fun a b => rowid a < rowid b) rows ->
  order_by_id_desc rows = rev rows.
Proof.
  induction 1 as [|r rows _ IH Hr]; cbn; [reflexivity|].
  unfold order_by_id_desc in IH. rewrite IH.
  apply insert_desc_smallest.
  apply List.Forall_forall. intros x Hx. apply in_rev in Hx.
  rewrite List.Forall_forall in Hr. apply Hr. exact Hx.
Qed.

(** ** The storage invariant *)

Lemma tables_ok_insert (name : list N) (cols : list (list N)) (params : list pyval)
    (tabs tabs' : gmap (list N) table) :
  tables_ok tabs -> sql_insert name cols params tabs = Ok tabs' -> tables_ok tabs'.
Proof.
  intros (Hasc & Hsch & g & Hg & Hgs) Hins.
  apply sql_insert_ok in Hins as (key & t & vals & cs & _ & Ht & _ & _ & ->).
  split; [|split].
  - intros k u. rewrite lookup_insert. case_decide as Hk.
    + intros [= <-]. apply ascending_append. eauto.
    + eauto.
  - intros k u. rewrite lookup_insert. case_decide as Hk.
    + intros [= <-] Hne. cbn. subst k. eauto.
    + eauto.
  - destruct (decide (key = weather_data)) as [->|Hne].
    + eexists. rewrite lookup_insert_eq. split; [reflexivity|]. cbn. congruence.
    + exists g. rewrite lookup_insert_ne by exact Hne. auto.
Qed.

Lemma tables_ok_create (name : list N) (tabs tabs' : gmap (list N) table) :
  tables_ok tabs ->
  sql_create_if_not_exists name station_schema tabs = Ok tabs' ->
  tables_ok tabs'.
Proof.
  intros Hok Hcr.
  apply sql_create_ok in Hcr as (key & _ & [[_ ->] | [Hnone ->]]); [exact Hok|].
  destruct Hok as (Hasc & Hsch & g & Hg & Hgs).
  assert (key <> weather_data) as Hne by congruence.
  split; [|split].
  - intros k u. rewrite lookup_insert. case_decide.
    + intros [= <-]. apply ascending_fresh.
    + eauto.
  - intros k u. rewrite lookup_insert. case_decide.
    + intros [= <-] _. reflexivity.
    + eauto.
  - exists g. rewrite lookup_insert_ne by exact Hne. auto.
Qed.

Lemma storage_ok_init (d : database) :
  (forall key t, tables d !! key = Some t -> ascending t) ->
  (forall key t, tables d !! key = Some t -> key <> weather_data ->
                 t_schema t = station_schema) ->
  (forall t, tables d !! weather_data = Some t -> t_schema t = global_schema) ->
  storage_ok (snd (call init_database d)).
Proof.
  intros Hasc Hsch Hg. rewrite init_database_call. unfold storage_ok. cbn [snd tables].
  destruct (tables d !! weather_data) as [g|] eqn:Hlook.
  - split; [|split]; eauto.
  - split; [|split].
    + intros k u. rewrite lookup_insert. case_decide.
      * intros [= <-]. apply ascending_fresh.
      * eauto.
    + intros k u. rewrite lookup_insert. case_decide; [congruence | eauto].
    + exists fresh_global. rewrite lookup_insert_eq. auto.
Qed.

Lemma storage_ok_restart (d : database) :
  storage_ok d -> snd (call init_database d) = {| journal_mode := WAL; tables := tables d |}.
Proof.
  intros (_ & _ & g & Hg & _). rewrite init_database_call. cbn [snd]. now rewrite Hg.
Qed.

(** A call of [save_station_data], whatever it returns, keeps the
    invariant. *)
Lemma storage_ok_save (data : pyval) (d : database) :
  storage_ok d -> storage_ok (snd (call (save_station_data data) d)).
Proof.
  intros Hok. rewrite save_station_data_call.
  destruct (subscript data k_station_id) as [sid|]; [|exact Hok].
  destruct (sanitize sid) as [station|]; [|exact Hok].
  cbv zeta. unfold mbind, result_bind.
  read_fields data ltac:(exact Hok).
  destruct (sql_insert weather_data _ _ _) as [t1|] eqn:H1; [|exact Hok].
  destruct (sql_create_if_not_exists _ _ t1) as [t2|] eqn:H2; [|exact Hok].
  destruct (sql_insert _ _ _ t2) as [t3|] eqn:H3; [|exact Hok].
  unfold storage_ok. cbn [snd tables].
  eapply tables_ok_insert; [|exact H3].
  eapply tables_ok_create; [|exact H2].
  eapply tables_ok_insert; [|exact H1]. exact Hok.
Qed.

Lemma reachable_storage_ok (d : database) : reachable d -> storage_ok d.
Proof.
  induction 1 as [|d _ IH|d data _ IH].
  - apply storage_ok_init; cbn; intros *; rewrite lookup_empty; discriminate.
  - rewrite (storage_ok_restart _ IH). exact IH.
  - apply storage_ok_save. exact IH.
Qed.

(** ** Reading the global ledger *)

Lemma sql_limit_map {A B} (f : A -> B) (limit : Z) (l : list A) :
  map f (sql_limit limit l) = sql_limit limit (map f l).
Proof.
  unfold sql_limit. destruct (limit <? 0); [reflexivity|]. symmetry. apply firstn_map.
Qed.

Lemma get_latest_data_call (limit : Z) (d : database) :
  storage_ok d ->
  call (get_latest_data limit) d =
  (if ((- 2 ^ 63 <=? limit) && (limit <? 2 ^ 63))%bool
   then Ok (sql_limit limit (rev (global_ledger d)))
   else Raise OverflowError, d).
Proof.
  intros (Hasc & _ & g & Hg & Hgs).
  unfold call, get_latest_data, connect, execute_select_latest, close, view,
    mbind, mret, conn_bind, conn_ret.
  cbn [txn disk].
  unfold sql_select_latest. rewrite weather_data_identifier.
  cbn [mbind result_bind]. rewrite Hg, Hgs.
  change (negb (forallb (has_column global_schema) (py "id" :: global_columns)))
    with false.
  cbv iota.
  destruct ((- 2 ^ 63 <=? limit) && (limit <? 2 ^ 63))%bool; cbn [negb];
    [|reflexivity].
  cbn [disk]. f_equal. f_equal.
  rewrite (order_by_id_desc_ascending _ (proj1 (Hasc _ _ Hg))).
  rewrite !sql_limit_map. f_equal.
  unfold global_ledger, rows_of, rows_in, ledger_line. rewrite Hg.
  rewrite !map_rev. f_equal. rewrite map_map. reflexivity.
Qed.

(** ** [get_latest_data] (claim C3) *)

(** C3, counterexample.  With limit -1 the query has no bound: on a ledger
    of two readings it returns both, which is more than the limit. *)
Lemma get_latest_data_negative_limit :
  reachable two_readings /\
  exists rows,
    fst (call (get_latest_data (-1)) two_readings) = Ok rows /\
    length rows = 2%nat /\
    ~ (Z.of_nat (length rows) <= -1).
Proof.
  split.
  - apply reach_save, reach_save, reach_start.
  - eexists. split; [vm_compute; reflexivity|]. split; [reflexivity|].
    cbn. lia.
Qed.

(** C3, as amended.  For every limit from 0 (below 2^63) and every storage
    state of the server, [get_latest_data limit] returns the first [limit]
    rows of the global ledger read backwards along the insertion order: at
    most [limit] rows, the last inserted first, whatever the timestamps the
    rows carry.  It leaves the database as it is. *)
Theorem get_latest_data_newest_first (limit : Z) (d : database) :
  storage_ok d ->
  0 <= limit < 2 ^ 63 ->
  exists rows,
    call (get_latest_data limit) d = (Ok rows, d) /\
    rows = firstn (Z.to_nat limit) (rev (global_ledger d)) /\
    Z.of_nat (length rows) <= limit.
Proof.
  intros Hok [Hlo Hhi].
  exists (firstn (Z.to_nat limit) (rev (global_ledger d))).
  split; [|split; [reflexivity|]].
  - rewrite get_latest_data_call by exact Hok.
    replace ((- 2 ^ 63 <=? limit) && (limit <? 2 ^ 63))%bool with true
      by (symmetry; apply andb_true_intro; split; [apply Z.leb_le | apply Z.ltb_lt]; lia).
    unfold sql_limit. destruct (Z.ltb_spec limit 0); [lia | reflexivity].
  - pose proof (firstn_le_length (Z.to_nat limit) (rev (global_ledger d))). lia.
Qed.

Lemma get_latest_data_newest_first_witness :
  storage_ok two_readings /\
  0 <= 1 < 2 ^ 63 /\
  exists rows,
    call (get_latest_data 1) two_readings = (Ok rows, two_readings) /\
    rows = firstn (Z.to_nat 1) (rev (global_ledger two_readings)) /\
    Z.of_nat (length rows) <= 1.
Proof.
  assert (storage_ok two_readings) as Hok
    by (apply reachable_storage_ok, reach_save, reach_save, reach_start).
  split; [exact Hok|]. split; [lia|].
  apply (get_latest_data_newest_first 1 two_readings Hok). lia.
Defined.

(** The reading inserted last comes first although its timestamp is the
    earlier one. *)
Example get_latest_data_ignores_timestamps :
  fst (call (get_latest_data 2) two_readings) =
  Ok [ [PStr (py "station01_coastal"); PFloat (tenths 1000); PFloat (tenths 190);
        PFloat (tenths 560); PFloat (tenths 70)];
       [PStr (py "station01_coastal"); PFloat (tenths 2000); PFloat (tenths 185);
        PFloat (tenths 550); PFloat (tenths 80)] ].
Proof. vm_compute. reflexivity. Qed.

(** ** [init_database] (claim C7) *)

Lemma initialize_twice (d : database) : initialize (initialize d) = initialize d.
Proof.
  unfold initialize. rewrite !init_database_call. cbn [snd tables].
  destruct (tables d !! weather_data) as [g|] eqn:Hg.
  - now rewrite Hg.
  - now rewrite lookup_insert_eq.
Qed.

(** C7.  [init_database] never raises; calling it N >= 1 times leaves the
    database in the state one call leaves it in; a table that exists keeps
    its definition, its rows and its sequence; and the global ledger exists
    afterwards, with the declared columns if the call created it. *)
Theorem init_database_idempotent (n : nat) (d : database) :
  (1 <= n)%nat ->
  fst (call init_database d) = Ok tt /\
  Nat.iter n initialize d = initialize d /\
  (forall key t, tables d !! key = Some t -> tables (initialize d) !! key = Some t) /\
  (exists g, tables (initialize d) !! weather_data = Some g /\
             (tables d !! weather_data = None -> g = fresh_global)).
Proof.
  intros Hn. split; [now rewrite init_database_call|]. split; [|split].
  - destruct n as [|n]; [lia|]. clear Hn.
    induction n as [|n IH]; [reflexivity|].
    change (Nat.iter (S (S n)) initialize d) with (initialize (Nat.iter (S n) initialize d)).
    rewrite IH. apply initialize_twice.
  - intros key t Ht. unfold initialize. rewrite init_database_call. cbn [snd tables].
    destruct (tables d !! weather_data) eqn:Hg; [exact Ht|].
    rewrite lookup_insert_ne by congruence. exact Ht.
  - unfold initialize. rewrite init_database_call. cbn [snd tables].
    destruct (tables d !! weather_data) as [g|] eqn:Hg.
    + exists g. split; [exact Hg | discriminate].
    + exists fresh_global. split; [apply lookup_insert_eq | reflexivity].
Qed.

Lemma init_database_idempotent_witness :
  (1 <= 3)%nat /\
  fst (call init_database two_readings) = Ok tt /\
  Nat.iter 3 initialize two_readings = initialize two_readings.
Proof.
  split; [lia|].
  destruct (init_database_idempotent 3 two_readings) as (H1 & H2 & _); [lia|].
  split; [exact H1 | exact H2].
Defined.

(** ** The read endpoint (claim C8) *)

Lemma get_latest_data_reads_only (limit : Z) (d : database) :
  snd (call (get_latest_data limit) d) = d.
Proof.
  unfold call, get_latest_data, connect, execute_select_latest, close, view,
    mbind, mret, conn_bind, conn_ret.
  cbn [txn disk].
  destruct (sql_select_latest _ _ _ _); reflexivity.
Qed.

Lemma handle_web_reads_only (d : database) : snd (call handle_web d) = d.
Proof.
  pose proof (get_latest_data_reads_only 40 d) as Hget.
  unfold call, handle_web, lift, mbind, conn_bind in *.
  destruct (get_latest_data 40 _) as [[rows|e] w]; cbn [snd] in *; exact Hget.
Qed.

(** The request handler: the query, then the lines. *)
Lemma handle_web_call (d : database) :
  call handle_web d =
  match call (get_latest_data 40) d with
  | (Ok rows, d') => (table_lines rows, d')
  | (Raise e, d') => (Raise e, d')
  end.
Proof.
  unfold call, handle_web, lift, mbind, conn_bind.
  destruct (get_latest_data 40 _) as [[rows|e] w]; reflexivity.
Qed.

(** The only table the query looks up is the global ledger. *)
Lemma get_latest_data_one_table (limit : Z) (d d' : database) :
  tables d !! weather_data = tables d' !! weather_data ->
  fst (call (get_latest_data limit) d) = fst (call (get_latest_data limit) d').
Proof.
  intros Hsame.
  unfold call, get_latest_data, connect, execute_select_latest, close, view,
    mbind, mret, conn_bind, conn_ret.
  cbn [txn disk]. unfold sql_select_latest. rewrite weather_data_identifier.
  cbn [mbind result_bind]. rewrite Hsame.
  destruct (tables d' !! weather_data) as [t|]; [|reflexivity].
  destruct (negb _); [reflexivity|]. destruct (negb _); reflexivity.
Qed.

(** The lines of rows that are Readings carry the labels of their
    stations. *)
Lemma table_lines_labels (rs : list reading) :
  exists lines,
    table_lines (map as_row rs) = Ok lines /\
    map fst lines = map (fun r => extract_station_location (station_id r)) rs.
Proof.
  induction rs as [|r rs (lines & Hlines & Hlabels)]; [exists []; auto|].
  eexists (_ :: lines). cbn [map table_lines]. rewrite Hlines. split; [reflexivity|].
  cbn [map fst]. now rewrite Hlabels.
Qed.

(** C8.  The label [extract_station_location] derives from a station
    identifier is what follows its last underscore if it has one, and the
    identifier itself if it has none.  The request handler, the one place
    that derives it, does so after its one query: it leaves the database as
    it found it, it reads no table but the global ledger, whatever the
    labels are, and on a ledger of Readings its page has, for each of the 40
    newest rows, the label of the row's station. *)
Theorem extract_station_location_label (name : list N) :
  (In underscore name ->
   exists before,
     name = before ++ underscore :: extract_station_location name /\
     ~ In underscore (extract_station_location name)) /\
  (~ In underscore name -> extract_station_location name = name) /\
  (forall d, snd (call handle_web d) = d) /\
  (forall d d', tables d !! weather_data = tables d' !! weather_data ->
                fst (call handle_web d) = fst (call handle_web d')) /\
  (forall d rs,
     storage_ok d ->
     global_ledger d = map as_row rs ->
     exists lines,
       fst (call handle_web d) = Ok lines /\
       map fst lines =
       map (fun r => extract_station_location (station_id r)) (firstn 40 (rev rs))).
Proof.
  unfold extract_station_location at 1 2 3. split; [|split; [|split; [|split]]].
  - intros Hin. destruct (split_with_separator _ _ Hin) as (Hlen & before & Heq & Hlast).
    apply Nat.ltb_lt in Hlen. rewrite Hlen. exists before. auto.
  - intros Hnot. rewrite (split_without_separator _ _ Hnot). reflexivity.
  - apply handle_web_reads_only.
  - intros d d' Hsame. rewrite !handle_web_call.
    pose proof (get_latest_data_one_table 40 d d' Hsame) as Hget.
    destruct (call (get_latest_data 40) d) as [[rows|e] d1];
      destruct (call (get_latest_data 40) d') as [[rows'|e'] d1'];
      cbn [fst] in *; congruence.
  - intros d rs Hok Hrows.
    rewrite handle_web_call, (get_latest_data_call 40 d Hok), Hrows.
    change ((- 2 ^ 63 <=? 40) && (40 <? 2 ^ 63))%bool with true. cbv iota.
    unfold sql_limit. change (40 <? 0) with false. cbv iota.
    change (Z.to_nat 40) with 40%nat.
    rewrite <- map_rev, firstn_map. cbn [fst].
    apply table_lines_labels.
Qed.

Lemma extract_station_location_label_witness :
  In underscore (py "station01_coastal") /\
  extract_station_location (py "station01_coastal") = py "coastal" /\
  ~ In underscore (py "station04") /\
  extract_station_location (py "station04") = py "station04" /\
  exists lines,
    fst (call handle_web two_readings) = Ok lines /\
    map fst lines = [py "coastal"; py "coastal"].
Proof.
  assert (In underscore (py "station01_coastal")) as Hin by (vm_compute; tauto).
  assert (~ In underscore (py "station04")) as Hnot
    by (vm_compute; intros H; repeat destruct H as [H|H]; try discriminate H; exact H).
  pose proof (extract_station_location_label (py "station04")) as (_ & H4 & _ & _ & Hpage).
  split; [exact Hin|]. split; [reflexivity|]. split; [exact Hnot|].
  split; [exact (H4 Hnot)|].
  apply (Hpage two_readings
           [first_reading_model;
            {| station_id := py "station01_coastal";
               timestamp := tenths 1000;
               temperature := tenths 190;
               humidity := tenths 560;
               wind := tenths 70 |}]).
  - apply reachable_storage_ok, reach_save, reach_save, reach_start.
  - vm_compute. reflexivity.
Defined.

(** ** Atomicity of [save_station_data] (claim C9) *)

Lemma sql_insert_rows (name : list N) (cols : list (list N)) (params : list pyval)
    (tabs tabs' : gmap (list N) table) :
  sql_insert name cols params tabs = Ok tabs' ->
  exists key new,
    sql_identifier name = Ok key /\
    rows_in tabs' key = rows_in tabs key ++ [new] /\
    (forall k, k <> key -> rows_in tabs' k = rows_in tabs k).
Proof.
  intros Hins.
  apply sql_insert_ok in Hins as (key & t & vals & cs & Hid & Ht & _ & _ & ->).
  exists key, {| rowid := t_seq t + 1; cells := cs |}. split; [exact Hid|].
  unfold rows_in. split.
  - now rewrite lookup_insert_eq, Ht.
  - intros k Hk. now rewrite lookup_insert_ne by congruence.
Qed.

Lemma sql_create_rows (name : list N) (schema : list (list N * coltype))
    (tabs tabs' : gmap (list N) table) (k : list N) :
  sql_create_if_not_exists name schema tabs = Ok tabs' ->
  rows_in tabs' k = rows_in tabs k.
Proof.
  intros Hcr.
  apply sql_create_ok in Hcr as (key & _ & [[_ ->] | [Hnone ->]]); [reflexivity|].
  unfold rows_in. rewrite lookup_insert. case_decide as Hk; [|reflexivity].
  subst k. now rewrite Hnone.
Qed.

Lemma sql_identifier_fold (text key : list N) :
  sql_identifier text = Ok key -> key = fold_case text.
Proof.
  unfold sql_identifier. destruct text as [|c rest]; [discriminate|].
  destruct (id_start c && forallb id_char rest)%bool; [|discriminate].
  now intros [= <-].
Qed.

(** C9.  A call of [save_station_data] that raises leaves every table as it
    was; a call that returns has appended to the global ledger and to the
    per-station ledger, both. *)
Theorem save_station_data_atomic (data : pyval) (d : database) :
  match call (save_station_data data) d with
  | (Raise _, d') => tables d' = tables d
  | (Ok _, d') =>
      exists station to_global to_station,
        subscript data k_station_id = Ok (PStr station) /\
        rows_of d' weather_data = rows_of d weather_data ++ to_global /\
        rows_of d' (station_table station) =
          rows_of d (station_table station) ++ to_station /\
        to_global <> [] /\ to_station <> []
  end.
Proof.
  rewrite save_station_data_call.
  destruct (subscript data k_station_id) as [sid|]; [|reflexivity].
  destruct (sanitize sid) as [station|] eqn:Hsan; [|reflexivity].
  cbv zeta. unfold mbind, result_bind.
  read_fields data ltac:(reflexivity).
  destruct (sql_insert weather_data _ _ _) as [t1|] eqn:H1; [|reflexivity].
  destruct (sql_create_if_not_exists _ _ t1) as [t2|] eqn:H2; [|reflexivity].
  destruct (sql_insert _ _ _ t2) as [t3|] eqn:H3; [|reflexivity].
  destruct sid as [| | | |s| |]; try discriminate Hsan.
  cbn in Hsan. destruct (SAFE_NAME_match s); [|discriminate].
  injection Hsan as <-.
  apply sql_insert_rows in H1 as (k1 & g & Hk1 & Hg & Hother1).
  rewrite weather_data_identifier in Hk1. injection Hk1 as <-.
  apply sql_insert_rows in H3 as (k3 & p & Hk3 & Hp & Hother3).
  apply sql_identifier_fold in Hk3. fold (station_table s) in Hk3. subst k3.
  unfold rows_of. cbn [tables].
  destruct (decide (station_table s = weather_data)) as [Heq|Hne].
  - exists s, [g; p], [g; p]. rewrite Heq in *.
    rewrite Hp, (sql_create_rows _ _ _ _ _ H2), Hg, <- app_assoc.
    repeat split; try reflexivity; discriminate.
  - exists s, [g], [p].
    rewrite Hp, (sql_create_rows _ _ _ _ _ H2), (Hother1 _ Hne).
    rewrite (Hother3 weather_data) by congruence.
    rewrite (sql_create_rows _ _ _ _ _ H2), Hg.
    repeat split; try reflexivity; discriminate.
Qed.

(** The three ways the call can fail, on the database after the start: a
    name the pattern refuses, a table that cannot be created, a row the
    station table refuses.  The database stays as it was. *)
Example save_station_data_failures :
  call (save_station_data unsafe_reading) started = (Raise ValueError, started) /\
  call (save_station_data hyphen_reading) started = (Raise OperationalError, started) /\
  call (save_station_data null_timestamp_reading) started
  = (Raise IntegrityError, started).
Proof. vm_compute. repeat split. Qed.

(** ** [sanitize] (claim C1) *)

Lemma class_star_dollar_spec (s : list N) :
  class_star_dollar s = true <->
  exists body, forallb safe_char body = true /\ (s = body \/ s = body ++ [newline]).
Proof.
  split.
  - induction s as [|c rest IH]; intros H.
    + exists []. auto.
    + cbn [class_star_dollar] in H. apply orb_true_iff in H as [H|H].
      * destruct rest; [|discriminate]. cbn in H. apply N.eqb_eq in H as ->.
        exists []. auto.
      * apply andb_true_iff in H as [Hc Hrest].
        destruct (IH Hrest) as (body & Hbody & Hs).
        exists (c :: body). cbn [forallb]. rewrite Hc, Hbody.
        split; [reflexivity|]. destruct Hs as [->| ->]; auto.
  - intros (body & Hbody & Hs). revert s Hs.
    induction body as [|c body IH]; intros s Hs.
    + destruct Hs as [->| ->]; reflexivity.
    + cbn [forallb] in Hbody. apply andb_true_iff in Hbody as [Hc Hbody].
      assert (exists rest, s = c :: rest /\ (rest = body \/ rest = body ++ [newline]))
        as (rest & -> & Hrest) by (destruct Hs as [->| ->]; eauto).
      cbn [class_star_dollar]. rewrite Hc, (IH Hbody rest Hrest).
      apply orb_true_r.
Qed.

(** What the pattern accepts: a non-empty run of safe characters, and also
    such a run followed by one newline. *)
Lemma SAFE_NAME_match_spec (s : list N) :
  SAFE_NAME_match s = true <->
  exists body,
    body <> [] /\ forallb safe_char body = true /\ (s = body \/ s = body ++ [newline]).
Proof.
  unfold SAFE_NAME_match. split.
  - destruct s as [|c rest]; [discriminate|]. intros H.
    apply andb_true_iff in H as [Hc Hrest].
    apply class_star_dollar_spec in Hrest as (body & Hbody & Hs).
    exists (c :: body). cbn [forallb]. rewrite Hc, Hbody.
    split; [discriminate|]. split; [reflexivity|]. destruct Hs as [->| ->]; auto.
  - intros (body & Hne & Hbody & Hs).
    destruct body as [|c body]; [contradiction|].
    cbn [forallb] in Hbody. apply andb_true_iff in Hbody as [Hc Hbody].
    assert (exists rest, s = c :: rest /\ (rest = body \/ rest = body ++ [newline]))
      as (rest & -> & Hrest) by (destruct Hs as [->| ->]; eauto).
    rewrite Hc. apply class_star_dollar_spec. eauto.
Qed.

(** A station identifier the pattern refuses stops [save_station_data]
    before it opens the database. *)
Lemma save_station_data_refused (data : pyval) (s : list N) (d : database) :
  subscript data k_station_id = Ok (PStr s) ->
  SAFE_NAME_match s = false ->
  call (save_station_data data) d = (Raise ValueError, d).
Proof.
  intros Hs Hno. rewrite save_station_data_call, Hs. cbn. now rewrite Hno.
Qed.

Lemma sql_identifier_newline (body tail : list N) :
  sql_identifier (body ++ newline :: tail) = Raise OperationalError.
Proof.
  unfold sql_identifier.
  destruct body as [|c body]; cbn [app]; [reflexivity|].
  rewrite forallb_app. cbn [forallb].
  change (id_char newline) with false.
  now rewrite andb_false_r, andb_false_r.
Qed.

(** Whatever the pattern does, a station identifier with a character outside
    the safe set never gets a reading stored: the call raises and every
    table is as before. *)
Lemma save_station_data_unsafe (data : pyval) (s : list N) (d : database) :
  subscript data k_station_id = Ok (PStr s) ->
  forallb safe_char s = false ->
  exists e,
    fst (call (save_station_data data) d) = Raise e /\
    tables (snd (call (save_station_data data) d)) = tables d.
Proof.
  intros Hs Hunsafe.
  destruct (SAFE_NAME_match s) eqn:Hmatch.
  - pose proof Hmatch as Hshape.
    apply SAFE_NAME_match_spec in Hshape as (body & _ & Hbody & [->| ->]);
      [congruence|].
    rewrite save_station_data_call, Hs in *. cbn [sanitize] in *.
    rewrite Hmatch in *.
    cbv zeta in *. unfold mbind, result_bind in *.
    read_fields data ltac:(eauto).
    destruct (sql_insert weather_data _ _ _); [|eauto].
    unfold sql_create_if_not_exists.
    rewrite <- app_assoc. cbn [app]. rewrite sql_identifier_newline.
    cbn. eauto.
  - rewrite (save_station_data_refused _ _ _ Hs Hmatch). eauto.
Qed.

(** C1, at the failing input.  The identifier [station01] followed by a
    newline has a character outside the safe set, and [sanitize] returns it
    instead of raising: the end anchor of the pattern also matches before a
    final newline.  [save_station_data] then goes on to the database and is
    stopped only by the syntax error of the CREATE TABLE statement; sent as
    a frame, the record is logged as a database error. *)
Theorem sanitize_accepts_trailing_newline :
  forallb safe_char newline_station = false /\
  sanitize (PStr newline_station) = Ok newline_station /\
  call (save_station_data newline_reading) started = (Raise OperationalError, started) /\
  handle_client [ReadLine newline_frame] server_started =
  (Reading,
   {| db := started;
      log := [INFO_client_connected; ERROR_database_save OperationalError] |}).
Proof. vm_compute. repeat split. Qed.

(** ** Storing a Reading *)

(** A real number lands in a REAL column as itself. *)
Lemma real_of_stored (v : pyval) (x : float) :
  real_of v = Some x ->
  exists b,
    bind_param v = Ok b /\
    apply_affinity REAL b = SReal x /\
    apply_affinity REAL_NOT_NULL b = SReal x.
Proof.
  destruct v as [| |z|f| | |]; try discriminate.
  - cbn [real_of]. destruct (Z.leb_spec (Z.abs z) (2 ^ 53)) as [Hz|]; [|discriminate].
    intros Hx. exists (SInt z). cbn [bind_param apply_affinity].
    replace ((- 2 ^ 63 <=? z) && (z <? 2 ^ 63))%bool with true.
    + destruct (sql_real (float_of_Z z)); try discriminate.
      injection Hx as <-. auto.
    + symmetry. apply andb_true_intro.
      change (2 ^ 53) with 9007199254740992 in Hz.
      change (2 ^ 63) with 9223372036854775808.
      split; [apply Z.leb_le | apply Z.ltb_lt]; lia.
  - destruct f as [neg m e| |]; try discriminate.
    cbn [real_of bind_param]. intros Hx. exists (sql_real (FDec neg m e)).
    destruct (sql_real (FDec neg m e)); try discriminate.
    injection Hx as <-. auto.
Qed.

Lemma safe_char_not_surrogate (c : N) : safe_char c = true -> is_surrogate c = false.
Proof.
  unfold safe_char, is_surrogate, is_lower, is_upper, is_digit, in_range,
    underscore, hyphen.
  intros H. apply andb_false_iff. left. apply N.leb_gt.
  repeat (apply orb_true_iff in H as [H|H]);
    repeat (apply andb_true_iff in H as [_ H]);
    try (apply N.leb_le in H); try (apply N.eqb_eq in H); lia.
Qed.

Lemma safe_name_binds (s : list N) :
  SAFE_NAME_match s = true -> bind_param (PStr s) = Ok (SText s).
Proof.
  intros Hs. cbn [bind_param].
  replace (existsb is_surrogate s) with false; [reflexivity|].
  symmetry. apply not_true_is_false. intros Hex.
  apply existsb_exists in Hex as (c & Hc & Hsur).
  apply SAFE_NAME_match_spec in Hs as (body & _ & Hbody & Hshape).
  rewrite forallb_forall in Hbody.
  assert (In c body \/ c = newline) as [Hin| ->].
  { destruct Hshape as [->| ->]; [auto|].
    apply in_app_or in Hc as [|[<-|[]]]; auto. }
  - rewrite (safe_char_not_surrogate _ (Hbody _ Hin)) in Hsur. discriminate.
  - discriminate Hsur.
Qed.

Lemma build_cells_global (b1 b2 b3 b4 b5 : sqlval) :
  build_cells global_schema (combine global_columns [b1; b2; b3; b4; b5]) =
  Ok (<[k_station_id := b1]> (real_cells (apply_affinity REAL b2) b3 b4 b5)).
Proof. reflexivity. Qed.

Lemma build_cells_misfiled (b2 b3 b4 b5 : sqlval) :
  build_cells global_schema (combine station_columns [b2; b3; b4; b5]) =
  Ok (<[k_station_id := SNull]> (real_cells (apply_affinity REAL b2) b3 b4 b5)).
Proof. reflexivity. Qed.

Lemma build_cells_station (b2 b3 b4 b5 : sqlval) :
  build_cells station_schema (combine station_columns [b2; b3; b4; b5]) =
  if is_null (apply_affinity REAL_NOT_NULL b2) then Raise IntegrityError
  else Ok (real_cells (apply_affinity REAL_NOT_NULL b2) b3 b4 b5).
Proof. cbn -[apply_affinity insert]. destruct (is_null _); reflexivity. Qed.

Section Reading.
Variables (data : pyval) (r : reading).
Hypothesis Hcarries : carries data r.
Hypothesis Hsafe : SAFE_NAME_match (station_id r) = true.

Lemma carried_fields :
  exists a2 a3 a4 a5 b2 b3 b4 b5,
    subscript data k_timestamp = Ok a2 /\ subscript data k_temperature = Ok a3 /\
    subscript data k_humidity = Ok a4 /\ subscript data k_wind = Ok a5 /\
    bind_param a2 = Ok b2 /\ bind_param a3 = Ok b3 /\
    bind_param a4 = Ok b4 /\ bind_param a5 = Ok b5 /\
    apply_affinity REAL b2 = SReal (timestamp r) /\
    apply_affinity REAL_NOT_NULL b2 = SReal (timestamp r) /\
    apply_affinity REAL b3 = SReal (temperature r) /\
    apply_affinity REAL b4 = SReal (humidity r) /\
    apply_affinity REAL b5 = SReal (wind r).
Proof.
  destruct Hcarries as (_ & (a2 & H2 & R2) & (a3 & H3 & R3) & (a4 & H4 & R4) & (a5 & H5 & R5)).
  apply real_of_stored in R2 as (b2 & B2 & A2 & N2).
  apply real_of_stored in R3 as (b3 & B3 & A3 & _).
  apply real_of_stored in R4 as (b4 & B4 & A4 & _).
  apply real_of_stored in R5 as (b5 & B5 & A5 & _).
  exists a2, a3, a4, a5, b2, b3, b4, b5. repeat split; assumption.
Qed.

(** The call on a Reading, step by step: the row for the global ledger,
    the per-station table made if it is not there, the row for it. *)
Lemma save_reading_call (d : database) (g : table) :
  storage_ok d ->
  tables d !! weather_data = Some g ->
  call (save_station_data data) d =
  match sql_identifier (station_id r ++ py "_data") with
  | Raise e => (Raise e, {| journal_mode := WAL; tables := tables d |})
  | Ok key =>
      if starts_with reserved_prefix key
      then (Raise OperationalError, {| journal_mode := WAL; tables := tables d |})
      else
        let t1 := <[weather_data := append_row g (global_cells r)]> (tables d) in
        (Ok tt,
         {| journal_mode := WAL;
            tables :=
              if decide (key = weather_data)
              then <[key := append_row (append_row g (global_cells r))
                              (misfiled_cells r)]> t1
              else <[key := append_row (default fresh_station (tables d !! key))
                              (station_cells r)]> t1 |})
  end.
Proof.
  intros (Hasc & Hsch & g' & Hg' & Hgs) Hg.
  rewrite Hg in Hg'. injection Hg' as <-.
  destruct carried_fields as
    (a2 & a3 & a4 & a5 & b2 & b3 & b4 & b5 & H2 & H3 & H4 & H5 & B2 & B3 & B4 & B5
     & A2 & N2 & A3 & A4 & A5).
  rewrite save_station_data_call.
  destruct Hcarries as (-> & _).
  cbn [sanitize]. rewrite Hsafe. cbv zeta.
  rewrite H2, H3, H4, H5. cbn [mbind result_bind].
  assert (sql_insert weather_data global_columns
            [PStr (station_id r); a2; a3; a4; a5] (tables d)
          = Ok (<[weather_data := append_row g (global_cells r)]> (tables d))) as ->.
  { unfold sql_insert. rewrite weather_data_identifier. cbn [mbind result_bind].
    rewrite Hg, Hgs.
    change (negb (forallb (has_column global_schema) global_columns)) with false.
    cbv iota. cbn [bind_params mbind result_bind].
    rewrite (safe_name_binds _ Hsafe), B2, B3, B4, B5. cbn [mbind result_bind].
    rewrite build_cells_global. unfold real_cells.
    now rewrite A2, A3, A4, A5. }
  cbn [mbind result_bind].
  unfold sql_create_if_not_exists.
  destruct (sql_identifier (station_id r ++ py "_data")) as [key|e] eqn:Hkey;
    cbn [mbind result_bind]; [|reflexivity].
  destruct (starts_with reserved_prefix key); [reflexivity|].
  assert (bind_params [a2; a3; a5; a4] = Ok [b2; b3; b5; b4]) as Hbind
    by (cbn [bind_params mbind result_bind]; now rewrite B2, B3, B5, B4).
  destruct (decide (key = weather_data)) as [->|Hne].
  - rewrite lookup_insert_eq. cbn [mbind result_bind].
    unfold sql_insert. rewrite Hkey. cbn [mbind result_bind].
    rewrite lookup_insert_eq. cbn [append_row t_schema]. rewrite Hgs.
    change (negb (forallb (has_column global_schema) station_columns)) with false.
    cbv iota. rewrite Hbind. cbn [mbind result_bind].
    rewrite build_cells_misfiled. unfold real_cells.
    rewrite A2, A3, A4, A5. cbn [mbind result_bind].
    reflexivity.
  - rewrite lookup_insert_ne by congruence.
    set (t1 := <[weather_data := append_row g (global_cells r)]> (tables d)).
    assert (forall (t2 : gmap (list N) table) (t : table),
               t2 !! key = Some t -> t_schema t = station_schema ->
               sql_insert (station_id r ++ py "_data") station_columns
                 [a2; a3; a5; a4] t2
               = Ok (<[key := append_row t (station_cells r)]> t2)) as Hins.
    { intros t2 t Ht Hs. unfold sql_insert. rewrite Hkey. cbn [mbind result_bind].
      rewrite Ht, Hs.
      change (negb (forallb (has_column station_schema) station_columns)) with false.
      cbv iota. rewrite Hbind. cbn [mbind result_bind].
      rewrite build_cells_station. unfold real_cells.
      rewrite N2, A3, A4, A5. reflexivity. }
    destruct (tables d !! key) as [t|] eqn:Ht; cbn [mbind result_bind default].
    + rewrite (Hins t1 t).
      * reflexivity.
      * unfold t1. now rewrite lookup_insert_ne by congruence.
      * eapply Hsch; eauto.
    + rewrite (Hins _ fresh_station); [|apply lookup_insert_eq | reflexivity].
      rewrite insert_insert_eq. reflexivity.
Qed.
End Reading.

(** A Reading that [save_station_data] accepted had a name the pattern
    accepts. *)
Lemma saved_name_safe (data : pyval) (r : reading) (d d' : database) :
  carries data r ->
  call (save_station_data data) d = (Ok tt, d') ->
  SAFE_NAME_match (station_id r) = true.
Proof.
  intros (Hs & _) Hcall. rewrite save_station_data_call, Hs in Hcall.
  cbn [sanitize] in Hcall.
  destruct (SAFE_NAME_match (station_id r)); [reflexivity | discriminate].
Qed.

(** The tables after a Reading was saved. *)
Lemma saved_reading_tables (data : pyval) (r : reading) (d d' : database) :
  storage_ok d ->
  carries data r ->
  call (save_station_data data) d = (Ok tt, d') ->
  exists g,
    tables d !! weather_data = Some g /\
    let t1 := <[weather_data := append_row g (global_cells r)]> (tables d) in
    let key := station_table (station_id r) in
    tables d' =
      if decide (key = weather_data)
      then <[key := append_row (append_row g (global_cells r)) (misfiled_cells r)]> t1
      else <[key := append_row (default fresh_station (tables d !! key))
                      (station_cells r)]> t1.
Proof.
  intros Hok Hcarries Hcall.
  pose proof (saved_name_safe _ _ _ _ Hcarries Hcall) as Hsafe.
  destruct Hok as (Hasc & Hsch & g & Hg & Hgs).
  exists g. split; [exact Hg|].
  rewrite (save_reading_call data r Hcarries Hsafe d g) in Hcall;
    [|split; [|split]; eauto | exact Hg].
  destruct (sql_identifier _) as [key|] eqn:Hkey; [|discriminate].
  apply sql_identifier_fold in Hkey. fold (station_table (station_id r)) in Hkey.
  subst key.
  destruct (starts_with _ _); [discriminate|].
  cbv zeta in *. injection Hcall as <-. reflexivity.
Qed.

(** ** The two ledgers of one reading (claim C2) *)

(** C2.  After [save_station_data] accepted a Reading, the global ledger
    has a new row with the reading's humidity in the humidity column and its
    wind in the wind column, and the last row of the station's table has
    the wind in the humidity column and the humidity in the wind column;
    timestamp and temperature agree.  When humidity and wind differ, the
    two rows differ in both columns. *)
Theorem station_ledger_swaps_humidity_and_wind
    (data : pyval) (r : reading) (d d' : database) :
  storage_ok d ->
  carries data r ->
  call (save_station_data data) d = (Ok tt, d') ->
  exists g p later earlier,
    rows_of d' weather_data = rows_of d weather_data ++ g :: later /\
    rows_of d' (station_table (station_id r)) = earlier ++ [p] /\
    cells g !! k_station_id = Some (SText (station_id r)) /\
    cells g !! k_timestamp = Some (SReal (timestamp r)) /\
    cells g !! k_temperature = Some (SReal (temperature r)) /\
    cells g !! k_humidity = Some (SReal (humidity r)) /\
    cells g !! k_wind = Some (SReal (wind r)) /\
    cells p !! k_timestamp = Some (SReal (timestamp r)) /\
    cells p !! k_temperature = Some (SReal (temperature r)) /\
    cells p !! k_humidity = Some (SReal (wind r)) /\
    cells p !! k_wind = Some (SReal (humidity r)) /\
    (humidity r <> wind r ->
     cells g !! k_humidity <> cells p !! k_humidity /\
     cells g !! k_wind <> cells p !! k_wind).
Proof.
  intros Hok Hcarries Hcall.
  destruct (saved_reading_tables _ _ _ _ Hok Hcarries Hcall) as (g0 & Hg0 & Htabs).
  cbv zeta in Htabs. unfold rows_of, rows_in. rewrite Htabs, Hg0.
  exists {| rowid := t_seq g0 + 1; cells := global_cells r |}.
  destruct (decide (station_table (station_id r) = weather_data)) as [Heq|Hne].
  - rewrite Heq, lookup_insert_eq.
    exists {| rowid := t_seq g0 + 1 + 1; cells := misfiled_cells r |}.
    eexists [_], (t_rows g0 ++ [_]).
    cbn [append_row t_rows t_seq cells].
    split; [now rewrite <- app_assoc|].
    do 10 (split; [reflexivity|]).
    intros Hdiff. split; intros E;
      [change (Some (SReal (humidity r)) = Some (SReal (wind r))) in E
      |change (Some (SReal (wind r)) = Some (SReal (humidity r))) in E];
      congruence.
  - rewrite lookup_insert_eq, lookup_insert_ne, lookup_insert_eq by congruence.
    exists {| rowid := t_seq (default fresh_station (tables d !! station_table (station_id r))) + 1;
              cells := station_cells r |}.
    exists [], (t_rows (default fresh_station (tables d !! station_table (station_id r)))).
    cbn [append_row t_rows t_seq cells].
    do 11 (split; [reflexivity|]).
    intros Hdiff. split; intros E;
      [change (Some (SReal (humidity r)) = Some (SReal (wind r))) in E
      |change (Some (SReal (wind r)) = Some (SReal (humidity r))) in E];
      congruence.
Qed.

Lemma first_reading_carried : carries first_reading first_reading_model.
Proof.
  split; [reflexivity|].
  repeat split; eexists; (split; [reflexivity|]); reflexivity.
Qed.

Lemma station_ledger_swaps_humidity_and_wind_witness :
  storage_ok started /\
  carries first_reading first_reading_model /\
  exists d' g p,
    call (save_station_data first_reading) started = (Ok tt, d') /\
    In g (rows_of d' weather_data) /\
    In p (rows_of d' (station_table (py "station01_coastal"))) /\
    cells g !! k_humidity = Some (SReal (tenths 550)) /\
    cells p !! k_humidity = Some (SReal (tenths 80)).
Proof.
  assert (storage_ok started) as Hok by (apply reachable_storage_ok, reach_start).
  split; [exact Hok|]. split; [exact first_reading_carried|].
  exists (snd (call (save_station_data first_reading) started)).
  assert (call (save_station_data first_reading) started
          = (Ok tt, snd (call (save_station_data first_reading) started))) as Hcall
    by (vm_compute; reflexivity).
  destruct (station_ledger_swaps_humidity_and_wind
              first_reading first_reading_model started _ Hok first_reading_carried Hcall)
    as (g & p & later & earlier & Hg & Hp & _ & _ & _ & Hgh & _ & _ & _ & Hph & _).
  exists g, p. split; [exact Hcall|].
  split; [rewrite Hg; apply in_or_app; right; now left|].
  split; [change (py "station01_coastal") with (station_id first_reading_model);
          rewrite Hp; apply in_or_app; right; now left|].
  split; [exact Hgh | exact Hph].
Defined.

(** ** The newest reading (claim C4) *)


Lemma ledger_line_misfiled (id : Z) (r : reading) :
  ledger_line {| rowid := id; cells := misfiled_cells r |} =
  [PNone; PFloat (timestamp r); PFloat (temperature r);
   PFloat (wind r); PFloat (humidity r)].
Proof. reflexivity. Qed.

Lemma latest_of_ledger (d : database) (earlier : list row) (last : row) :
  storage_ok d ->
  rows_of d weather_data = earlier ++ [last] ->
  call (get_latest_data 1) d = (Ok [ledger_line last], d).
Proof.
  intros Hok Hrows. rewrite get_latest_data_call by exact Hok.
  change ((- 2 ^ 63 <=? 1) && (1 <? 2 ^ 63))%bool with true. cbv iota.
  unfold global_ledger. rewrite Hrows, map_app, rev_app_distr. reflexivity.
Qed.


(** For a station whose table is the global ledger, the newest row is the
    one meant for the station's table: no station identifier, humidity and
    wind exchanged. *)
Lemma latest_reading_misfiled (data : pyval) (r : reading) (d d' : database) :
  storage_ok d ->
  carries data r ->
  station_table (station_id r) = weather_data ->
  call (save_station_data data) d = (Ok tt, d') ->
  call (get_latest_data 1) d' =
  (Ok [[PNone; PFloat (timestamp r); PFloat (temperature r);
        PFloat (wind r); PFloat (humidity r)]], d').
Proof.
  intros Hok Hcarries Heq Hcall.
  assert (storage_ok d') as Hok'
    by (pose proof (storage_ok_save data d Hok) as H; now rewrite Hcall in H).
  destruct (saved_reading_tables _ _ _ _ Hok Hcarries Hcall) as (g & Hg & Htabs).
  cbv zeta in Htabs. rewrite decide_True in Htabs by exact Heq.
  rewrite <- (ledger_line_misfiled (t_seq g + 1 + 1) r).
  apply (latest_of_ledger d' (t_rows g ++ [{| rowid := t_seq g + 1; cells := global_cells r |}]));
    [exact Hok'|].
  unfold rows_of, rows_in. rewrite Htabs, Heq.
  now rewrite lookup_insert_eq.
Qed.

(** C4, at the failing input.  On the database as the first start leaves
    it, [save_station_data] accepts the reading of the station [weather]
    (timestamp 200.0, temperature 18.5, humidity 55.0, wind 8.0); its
    per-station table [weather_data] is the global ledger, which receives a
    second row, and [get_latest_data(1)] returns that row: no station
    identifier, humidity 8.0, wind 55.0. *)
Theorem latest_reading_of_station_weather :
  exists d',
    call (save_station_data weather_reading) started = (Ok tt, d') /\
    call (get_latest_data 1) d' =
    (Ok [[PNone; PFloat (tenths 2000); PFloat (tenths 185);
          PFloat (tenths 80); PFloat (tenths 550)]], d') /\
    length (rows_of d' weather_data) = 2%nat.
Proof.
  eexists. split; [vm_compute; reflexivity|]. split; vm_compute; reflexivity.
Qed.

(** ** Decoding a frame (claim C10) *)








(** What the loop does with a line, given its text. *)
Lemma read_loop_line (data : list byte) (text : list N) (rest : list read_event)
    (s : server) :
  data <> [] ->
  bytes_decode replace data = Ok text ->
  read_loop (ReadLine data :: rest) s =
  if (max_message <? length (strip text))%nat
  then read_loop rest (logging WARNING_oversized s)
  else match process_message (strip text) s with
       | (Ok _, s') => read_loop rest s'
       | (Raise e, s') => disconnect (logging (ERROR_client e) s')
       end.
Proof.
  intros Hne Htext. destruct data as [|b bs]; [contradiction|].
  cbn [read_loop]. rewrite Htext. reflexivity.
Qed.



(** ** The loop and the log *)

(** What [process_message] returns and does to the database does not
    depend on what was logged before. *)
Lemma process_message_log (message : list N) (s1 s2 : server) :
  db s1 = db s2 ->
  fst (process_message message s1) = fst (process_message message s2) /\
  db (snd (process_message message s1)) = db (snd (process_message message s2)).
Proof.
  intros Hdb. unfold process_message. rewrite Hdb.
  destruct (json_loads message) as [data|]; [|auto].
  destruct (issubset required data) as [[|]|]; [|auto..].
  destruct (call (save_station_data data) (db s2)) as [[[]|e] d']; [|auto].
  destruct (subscript data k_station_id), (subscript data k_temperature); auto.
Qed.

Lemma read_loop_log (events : list read_event) (s1 s2 : server) :
  db s1 = db s2 ->
  fst (read_loop events s1) = fst (read_loop events s2) /\
  db (snd (read_loop events s1)) = db (snd (read_loop events s2)).
Proof.
  revert s1 s2. induction events as [|ev rest IH]; intros s1 s2 Hdb; [auto|].
  destruct ev as [data| |e]; cbn [read_loop]; [|auto..].
  destruct data as [|b bs]; [auto|].
  destruct (bytes_decode replace (b :: bs)) as [text|]; [|auto].
  destruct (max_message <? length (strip text))%nat; [apply IH; exact Hdb|].
  destruct (process_message_log (strip text) s1 s2 Hdb) as [Hfst Hsnd].
  destruct (process_message (strip text) s1) as [[[]|e1] s1'],
           (process_message (strip text) s2) as [[[]|e2] s2'];
    cbn [fst snd] in *; try discriminate; [apply IH; exact Hsnd | auto].
Qed.

(** ** Frames that are too long (claim C5) *)

(** C5, counterexample.  A line of 3108 bytes, a reading followed by
    blanks, is not dropped: stripped of the blanks its text is short, it
    goes to [process_message] and the reading is stored. *)
Lemma padded_frame_stored :
  (2048 < length padded_frame)%nat /\
  exists s',
    handle_client [ReadLine padded_frame] server_started = (Reading, s') /\
    log s' = [INFO_client_connected;
              INFO_saved (PStr (py "station01_coastal")) (PFloat (tenths 185))] /\
    call (get_latest_data 1) (db s') = (Ok [as_row first_reading_model], db s').
Proof.
  split; [vm_compute; lia|].
  eexists. split; [vm_compute; reflexivity|].
  split; vm_compute; reflexivity.
Qed.

(** C5, as amended.  A line whose text, decoded and stripped of
    surrounding whitespace, has more than 2048 characters is dropped: the
    loop logs it and goes on with the next line; nothing is validated,
    nothing is stored, and the lines that follow are handled, for the
    connection and for the database, as if the long one had not come. *)
Theorem oversized_message_dropped (data : list byte) (text : list N)
    (rest : list read_event) (s : server) :
  bytes_decode replace data = Ok text ->
  (max_message < length (strip text))%nat ->
  read_loop (ReadLine data :: rest) s = read_loop rest (logging WARNING_oversized s) /\
  fst (read_loop (ReadLine data :: rest) s) = fst (read_loop rest s) /\
  db (snd (read_loop (ReadLine data :: rest) s)) = db (snd (read_loop rest s)).
Proof.
  intros Htext Hlong.
  assert (data <> []) as Hne.
  { intros ->. cbn in Htext. injection Htext as <-. cbn in Hlong. lia. }
  assert (read_loop (ReadLine data :: rest) s
          = read_loop rest (logging WARNING_oversized s)) as Hdrop.
  { rewrite (read_loop_line _ _ _ _ Hne Htext).
    apply Nat.ltb_lt in Hlong. now rewrite Hlong. }
  split; [exact Hdrop|]. rewrite Hdrop.
  apply read_loop_log. reflexivity.
Qed.

Lemma oversized_message_dropped_witness :
  exists text,
    bytes_decode replace long_frame = Ok text /\
    (max_message < length (strip text))%nat /\
    exists s',
      handle_client [ReadLine long_frame; ReadLine (line first_reading_text)]
        server_started = (Reading, s') /\
      call (get_latest_data 1) (db s') = (Ok [as_row first_reading_model], db s').
Proof.
  assert (bytes_decode replace long_frame = Ok (repeat 97%N 3000 ++ [newline]))
    as Htext by (vm_compute; reflexivity).
  eexists. split; [exact Htext|].
  assert (max_message < length (strip (repeat 97%N 3000 ++ [newline])))%nat
    as Hlong by (vm_compute; lia).
  split; [exact Hlong|].
  pose proof (oversized_message_dropped long_frame _
                [ReadLine (line first_reading_text)]
                (logging INFO_client_connected server_started) Htext Hlong)
    as (Hdrop & _ & _).
  unfold handle_client. rewrite Hdrop.
  eexists. split; [vm_compute; reflexivity|]. vm_compute. reflexivity.
Defined.

(** ** Records with a missing field (claim C6) *)

Lemma issubset_missing (d : list (list N * pyval)) (key : list N) :
  In key required ->
  dict_get key d = None ->
  issubset required (PDict d) = Ok false.
Proof.
  intros Hin Hnone. cbn [issubset]. f_equal.
  apply not_true_is_false. intros Hall.
  rewrite forallb_forall in Hall. specialize (Hall key Hin).
  apply existsb_exists in Hall as ([k v] & Hkv & Heq). cbn [fst] in Heq.
  apply bool_decide_eq_true in Heq. subst k.
  clear Hin. induction d as [|[k' v'] d IH]; [contradiction|].
  cbn [dict_get] in Hnone. unfold str_eqb in Hnone.
  destruct (bool_decide (key = k')) eqn:Hk; [discriminate|].
  apply bool_decide_eq_false in Hk.
  destruct Hkv as [[= <- <-]|Hkv]; [congruence | auto].
Qed.

(** A line that decodes to a JSON object without one of the five keys is
    discarded: a warning is logged, the database is not opened, the loop
    goes on with the next line. *)
Lemma missing_field_discarded (data : list byte) (text : list N)
    (d : list (list N * pyval)) (key : list N) (rest : list read_event) (s : server) :
  data <> [] ->
  bytes_decode replace data = Ok text ->
  (length (strip text) <= max_message)%nat ->
  json_loads (strip text) = Some (PDict d) ->
  In key required ->
  dict_get key d = None ->
  read_loop (ReadLine data :: rest) s =
  read_loop rest (logging (WARNING_missing_keys (strip text)) s).
Proof.
  intros Hne Htext Hshort Hjson Hkey Hnone.
  rewrite (read_loop_line _ _ _ _ Hne Htext).
  apply Nat.ltb_ge in Hshort. rewrite Hshort.
  unfold process_message. rewrite Hjson, (issubset_missing _ _ Hkey Hnone).
  reflexivity.
Qed.

(** The record without [wind], then the first reading: the first line is
    discarded, the second is stored. *)
Example windless_frame_discarded :
  exists s',
    handle_client [ReadLine windless_frame; ReadLine (line first_reading_text)]
      server_started = (Reading, s') /\
    length (log s') = 3%nat /\
    length (rows_of (db s') weather_data) = 1%nat.
Proof. eexists. split; [vm_compute; reflexivity|]. split; vm_compute; reflexivity. Qed.

(** A line that decodes to a number, a truth value or null leaves
    [process_message] with a TypeError. *)
Lemma scalar_message_raises (message : list N) (v : pyval) (s : server) :
  json_loads message = Some v ->
  match v with
  | PNone | PBool _ | PInt _ | PFloat _ => True
  | _ => False
  end ->
  process_message message s = (Raise TypeError, s).
Proof.
  intros Hjson Hscalar. unfold process_message. rewrite Hjson.
  destruct v; try contradiction; reflexivity.
Qed.

(** C6, at the failing input.  The line [5] decodes (to the number 5) and
    has none of the five fields.  [required.issubset(5)] raises a TypeError
    that nothing in [process_message] catches: the handler logs a client
    error and closes the connection, and the reading on the next line is
    never read. *)
Theorem number_frame_closes_connection :
  json_loads (py "5") = Some (PInt 5) /\
  handle_client [ReadLine number_frame; ReadLine (line first_reading_text)]
    server_started
  = (Closed,
     {| db := started;
        log := [INFO_client_connected; ERROR_client TypeError;
                INFO_client_disconnected] |}) /\
  fst (handle_client [ReadLine (line first_reading_text)] server_started) = Reading /\
  db (snd (handle_client [ReadLine (line first_reading_text)] server_started)) <> started.
Proof.
  split; [vm_compute; reflexivity|].
  split; [vm_compute; reflexivity|].
  split; [vm_compute; reflexivity|].
  intros H. apply (f_equal (fun d => length (rows_of d weather_data))) in H.
  vm_compute in H. discriminate H.
Qed.

(** * Further properties *)

(** ** UTF-8 on the wire *)

Ltac lia_div := zify; Z.to_euclidean_division_equations; lia.

(** Decide the comparisons of the goal one after the other, dropping the
    cases arithmetic excludes. *)
Ltac compare_with tac :=
  repeat (match goal with
          | |- context [N.leb ?a ?b] => destruct (N.leb_spec a b); try tac
          | |- context [N.ltb ?a ?b] => destruct (N.ltb_spec a b); try tac
          | |- context [N.eqb ?a ?b] => destruct (N.eqb_spec a b); try tac
          end; cbn [andb orb negb]).

Lemma to_N_byte_of (n : N) : (n < 256)%N -> Byte.to_N (byte_of n) = n.
Proof.
  intros Hn. unfold byte_of.
  destruct (Byte.of_N n) as [b|] eqn:Hb.
  - now apply Byte.to_of_N.
  - apply Byte.of_N_None_iff in Hb. lia.
Qed.

(** A code point in base 64, as UTF-8 cuts it. *)
Lemma split3 (c : N) :
  exists a b d, (c = a * 4096 + b * 64 + d /\ b < 64 /\ d < 64 /\
                 c / 4096 = a /\ (c / 64) mod 64 = b /\ c mod 64 = d)%N.
Proof. exists (c / 4096)%N, ((c / 64) mod 64)%N, (c mod 64)%N. lia_div. Qed.

Lemma split4 (c : N) :
  exists a b d e, (c = a * 262144 + b * 4096 + d * 64 + e /\ b < 64 /\ d < 64 /\ e < 64 /\
                   c / 262144 = a /\ (c / 4096) mod 64 = b /\
                   (c / 64) mod 64 = d /\ c mod 64 = e)%N.
Proof.
  exists (c / 262144)%N, ((c / 4096) mod 64)%N, ((c / 64) mod 64)%N, (c mod 64)%N.
  lia_div.
Qed.

(** The decoder reads the code of one character back as that character,
    under either error handler. *)
Lemma decode_encode_char (errors : error_handler) (c : N) (code rest : list byte) :
  (c < 1114112)%N ->
  encode_char c = Ok code ->
  bytes_decode errors (code ++ rest) = emit c (bytes_decode errors rest).
Proof.
  intros Hc. unfold encode_char, is_surrogate, in_range.
  destruct (N.ltb_spec c 128).
  { intros [= <-]. cbn [app bytes_decode]. rewrite to_N_byte_of by lia.
    destruct (N.ltb_spec c 128); [reflexivity | lia]. }
  destruct (N.ltb_spec c 2048).
  { intros [= <-]. cbn [app bytes_decode].
    rewrite !to_N_byte_of by lia_div.
    unfold in_range, continuation, in_range. compare_with lia_div.
    f_equal. lia_div. }
  destruct (N.leb_spec 55296 c); destruct (N.leb_spec c 57343);
    cbn [andb]; try discriminate.
  all: destruct (N.ltb_spec c 65536).
  all: intros [= <-]; cbn [app bytes_decode].
  1,3,5:
    destruct (split3 c) as (a & b & d & Hsplit & Hb & Hd & -> & -> & ->);
    rewrite !to_N_byte_of by lia;
    unfold second_ok, continuation, in_range; compare_with lia;
    f_equal; lia.
  all:
    destruct (split4 c) as (a & b & d & e & Hsplit & Hb & Hd & He & -> & -> & -> & ->);
    rewrite !to_N_byte_of by lia;
    unfold second_ok, continuation, in_range; compare_with lia;
    f_equal; lia.
Qed.

Lemma str_encode_ok (s : list N) :
  existsb is_surrogate s = false -> exists code, str_encode s = Ok code.
Proof.
  induction s as [|c rest IH]; cbn [existsb str_encode]; [eauto|].
  intros H. apply orb_false_iff in H as [Hc Hrest].
  destruct (IH Hrest) as (tail & ->).
  unfold encode_char. rewrite Hc.
  destruct (N.ltb c 128), (N.ltb c 2048), (N.ltb c 65536); cbn; eauto.
Qed.

Lemma str_encode_surrogate (s : list N) :
  existsb is_surrogate s = true -> str_encode s = Raise UnicodeEncodeError.
Proof.
  induction s as [|c rest IH]; cbn [existsb str_encode]; [discriminate|].
  intros H. unfold encode_char.
  destruct (is_surrogate c) eqn:Hc.
  - unfold is_surrogate, in_range in Hc. apply andb_true_iff in Hc as [Hlo _].
    apply N.leb_le in Hlo.
    destruct (N.ltb_spec c 128); [lia|]. destruct (N.ltb_spec c 2048); [lia|].
    reflexivity.
  - cbn [orb] in H. rewrite (IH H).
    destruct (N.ltb c 128), (N.ltb c 2048), (N.ltb c 65536); reflexivity.
Qed.

Lemma decode_str_encode (errors : error_handler) (s : list N) (code : list byte) :
  Forall (fun c => (c < 1114112)%N) s ->
  str_encode s = Ok code ->
  bytes_decode errors code = Ok s.
Proof.
  intros Hs. revert code. induction Hs as [|c rest Hc _ IH]; intros code.
  - now intros [= <-].
  - cbn [str_encode]. destruct (encode_char c) as [bs|] eqn:Hbs; [|discriminate].
    cbn [mbind result_bind].
    destruct (str_encode rest) as [tail|]; [|discriminate].
    cbn [mbind result_bind]. intros [= <-].
    rewrite (decode_encode_char errors c bs tail Hc Hbs), (IH tail eq_refl).
    reflexivity.
Qed.

(** X1.  What the client encodes, the server decodes: for every text of
    code points below 0x110000, [str.encode] raises exactly when the text
    holds a surrogate, and otherwise the bytes it returns decode, under the
    strict and under the replace handler alike, to the text. *)
Theorem encode_then_decode (s : list N) :
  Forall (fun c => (c < 1114112)%N) s ->
  if existsb is_surrogate s
  then str_encode s = Raise UnicodeEncodeError
  else exists code,
      str_encode s = Ok code /\
      bytes_decode strict code = Ok s /\
      bytes_decode replace code = Ok s.
Proof.
  intros Hs. destruct (existsb is_surrogate s) eqn:Hsur.
  - now apply str_encode_surrogate.
  - destruct (str_encode_ok s Hsur) as (code & Hcode).
    exists code. split; [exact Hcode|].
    split; apply decode_str_encode; assumption.
Qed.

Lemma encode_then_decode_witness :
  Forall (fun c => (c < 1114112)%N) [104; 233; 8364; 128512]%N /\
  exists code,
    str_encode [104; 233; 8364; 128512]%N = Ok code /\
    bytes_decode replace code = Ok [104; 233; 8364; 128512]%N.
Proof.
  assert (Forall (fun c => (c < 1114112)%N) [104; 233; 8364; 128512]%N) as Hs
    by (repeat constructor).
  split; [exact Hs|].
  pose proof (encode_then_decode [104; 233; 8364; 128512]%N Hs) as H.
  change (existsb is_surrogate [104; 233; 8364; 128512]%N) with false in H.
  destruct H as (code & Hcode & _ & Hreplace). eauto.
Defined.

(** ** Length of a decoded line *)

Lemma within_emit (c : N) (k m : nat) (r : result (list N)) :
  within k r -> (k < m)%nat -> within m (emit c r).
Proof.
  intros (text & -> & Hlen) Hk. exists (c :: text).
  split; [reflexivity | cbn; lia].
Qed.

Lemma within_on_error (k m : nat) (r : result (list N)) :
  within k r -> (k < m)%nat -> within m (on_error replace r).
Proof.
  intros (text & -> & Hlen) Hk. exists (replacement_character :: text).
  split; [reflexivity | cbn; lia].
Qed.

Lemma bytes_decode_within (n : nat) (data : list byte) :
  (length data <= n)%nat -> within (length data) (bytes_decode replace data).
Proof.
  revert data. induction n as [|n IH]; intros data Hlen.
  - destruct data; [|cbn in Hlen; lia]. exists []. auto.
  - destruct data as [|b0 t0]; [exists []; auto|].
    cbn [bytes_decode]. cbn [length] in Hlen.
    repeat match goal with
           | |- context [if ?b then _ else _] => destruct b
           | |- context [match ?t with [] => _ | _ :: _ => _ end] =>
               is_var t; destruct t; cbn [length] in Hlen
           end;
      first [ eapply within_on_error; [apply IH; cbn [length]; lia | cbn [length]; lia]
            | eapply within_emit; [apply IH; cbn [length]; lia | cbn [length]; lia] ].
Qed.

Lemma lstrip_length (s : list N) : (length (lstrip s) <= length s)%nat.
Proof.
  induction s as [|c rest IH]; cbn [lstrip]; [lia|].
  destruct (py_isspace c); cbn [length]; lia.
Qed.

Lemma strip_length (s : list N) : (length (strip s) <= length s)%nat.
Proof.
  unfold strip, rstrip. rewrite length_rev.
  etransitivity; [apply lstrip_length|]. rewrite length_rev. apply lstrip_length.
Qed.

(** X2.  A line of at most 2048 bytes is never dropped for its length: its
    text has no more characters than the line has bytes, and it reaches
    [process_message]. *)
Theorem short_line_reaches_validator (data : list byte) (rest : list read_event)
    (s : server) :
  data <> [] ->
  (length data <= max_message)%nat ->
  exists text,
    bytes_decode replace data = Ok text /\
    (length (strip text) <= length data)%nat /\
    read_loop (ReadLine data :: rest) s =
    match process_message (strip text) s with
    | (Ok _, s') => read_loop rest s'
    | (Raise e, s') => disconnect (logging (ERROR_client e) s')
    end.
Proof.
  intros Hne Hshort.
  destruct (bytes_decode_within (length data) data (le_n _)) as (text & Htext & Hlen).
  exists text. split; [exact Htext|].
  pose proof (strip_length text) as Hstrip.
  split; [lia|].
  rewrite (read_loop_line _ _ _ _ Hne Htext).
  replace (max_message <? length (strip text))%nat with false; [reflexivity|].
  symmetry. apply Nat.ltb_ge. lia.
Qed.

Lemma short_line_reaches_validator_witness :
  line first_reading_text <> [] /\
  (length (line first_reading_text) <= max_message)%nat /\
  exists text,
    bytes_decode replace (line first_reading_text) = Ok text /\
    (length (strip text) <= length (line first_reading_text))%nat.
Proof.
  assert (line first_reading_text <> []) as Hne by discriminate.
  assert (length (line first_reading_text) <= max_message)%nat as Hshort
    by (vm_compute; lia).
  split; [exact Hne|]. split; [exact Hshort|].
  destruct (short_line_reaches_validator _ [] server_started Hne Hshort)
    as (text & Htext & Hlen & _).
  eauto.
Defined.

Lemma lstrip_blank (s : list N) : forallb py_isspace s = true -> lstrip s = [].
Proof.
  induction s as [|c rest IH]; cbn [forallb lstrip]; [reflexivity|].
  intros H. apply andb_true_iff in H as [-> Hrest]. auto.
Qed.

Lemma strip_blank (s : list N) : forallb py_isspace s = true -> strip s = [].
Proof. intros H. unfold strip. now rewrite (lstrip_blank s H). Qed.

(** X3.  A line of nothing but whitespace (a bare newline, blanks) does not
    end the session, as an empty read does: its text is empty, which is
    not JSON; the loop logs the discarded message and goes on with the next
    line. *)
Theorem blank_line_discarded (data : list byte) (text : list N)
    (rest : list read_event) (s : server) :
  data <> [] ->
  bytes_decode replace data = Ok text ->
  forallb py_isspace text = true ->
  read_loop (ReadLine data :: rest) s =
    read_loop rest (logging (WARNING_invalid_json []) s) /\
  read_loop (ReadLine [] :: rest) s = disconnect s.
Proof.
  intros Hne Htext Hblank. split; [|reflexivity].
  rewrite (read_loop_line _ _ _ _ Hne Htext), (strip_blank _ Hblank).
  reflexivity.
Qed.

Lemma blank_line_discarded_witness :
  exists s',
    handle_client [ReadLine (line (wire "  ")); ReadLine (line first_reading_text)]
      server_started = (Reading, s') /\
    length (rows_of (db s') weather_data) = 1%nat.
Proof.
  assert (line (wire "  ") <> []) as Hne by discriminate.
  assert (bytes_decode replace (line (wire "  ")) = Ok [32; 32; 10]%N) as Htext
    by reflexivity.
  destruct (blank_line_discarded (line (wire "  ")) _
              [ReadLine (line first_reading_text)]
              (logging INFO_client_connected server_started) Hne Htext eq_refl)
    as [Hgo _].
  unfold handle_client. rewrite Hgo.
  eexists. split; vm_compute; reflexivity.
Defined.

(** ** Ledgers only grow *)

Lemma tables_extend_refl (tabs : gmap (list N) table) : tables_extend tabs tabs.
Proof. intros key t Ht. exists t, []. rewrite app_nil_r. auto. Qed.

Lemma tables_extend_trans (a b c : gmap (list N) table) :
  tables_extend a b -> tables_extend b c -> tables_extend a c.
Proof.
  intros Hab Hbc key t Ht.
  destruct (Hab key t Ht) as (t1 & m1 & Ht1 & Hs1 & Hr1).
  destruct (Hbc key t1 Ht1) as (t2 & m2 & Ht2 & Hs2 & Hr2).
  exists t2, (m1 ++ m2). split; [exact Ht2|]. split; [congruence|].
  now rewrite Hr2, Hr1, <- app_assoc.
Qed.

Lemma tables_extend_insert (name : list N) (cols : list (list N)) (params : list pyval)
    (tabs tabs' : gmap (list N) table) :
  sql_insert name cols params tabs = Ok tabs' -> tables_extend tabs tabs'.
Proof.
  intros Hins.
  apply sql_insert_ok in Hins as (key & t & vals & cs & _ & Ht & _ & _ & ->).
  intros k u Hu. destruct (decide (key = k)) as [<-|Hne].
  - rewrite Ht in Hu. injection Hu as <-.
    eexists _, _. rewrite lookup_insert_eq. split; [reflexivity|].
    split; reflexivity.
  - exists u, []. rewrite lookup_insert_ne by exact Hne. rewrite app_nil_r. auto.
Qed.

Lemma tables_extend_create (name : list N) (schema : list (list N * coltype))
    (tabs tabs' : gmap (list N) table) :
  sql_create_if_not_exists name schema tabs = Ok tabs' -> tables_extend tabs tabs'.
Proof.
  intros Hcr.
  apply sql_create_ok in Hcr as (key & _ & [[_ ->] | [Hnone ->]]);
    [apply tables_extend_refl|].
  intros k u Hu. exists u, [].
  rewrite lookup_insert_ne by congruence. rewrite app_nil_r. auto.
Qed.

Lemma save_station_data_extends (data : pyval) (d : database) :
  extends d (snd (call (save_station_data data) d)).
Proof.
  unfold extends.
  rewrite save_station_data_call.
  destruct (subscript data k_station_id) as [sid|]; [|apply tables_extend_refl].
  destruct (sanitize sid) as [station|]; [|apply tables_extend_refl].
  cbv zeta. unfold mbind, result_bind.
  read_fields data ltac:(apply tables_extend_refl).
  destruct (sql_insert weather_data _ _ _) as [t1|] eqn:H1; [|apply tables_extend_refl].
  destruct (sql_create_if_not_exists _ _ t1) as [t2|] eqn:H2; [|apply tables_extend_refl].
  destruct (sql_insert _ _ _ t2) as [t3|] eqn:H3; [|apply tables_extend_refl].
  cbn [snd tables].
  eapply tables_extend_trans; [eapply tables_extend_insert; exact H1|].
  eapply tables_extend_trans; [eapply tables_extend_create; exact H2|].
  eapply tables_extend_insert; exact H3.
Qed.

Lemma process_message_extends (message : list N) (s : server) :
  extends (db s) (db (snd (process_message message s))).
Proof.
  unfold extends, process_message.
  destruct (json_loads message) as [data|]; [|apply tables_extend_refl].
  destruct (issubset required data) as [[|]|]; try apply tables_extend_refl.
  pose proof (save_station_data_extends data (db s)) as Hext. unfold extends in Hext.
  destruct (call (save_station_data data) (db s)) as [[[]|e] d']; cbn [snd] in Hext.
  - destruct (subscript data k_station_id), (subscript data k_temperature); exact Hext.
  - exact Hext.
Qed.

Lemma read_loop_extends (events : list read_event) (s : server) :
  extends (db s) (db (snd (read_loop events s))).
Proof.
  unfold extends. revert s. induction events as [|ev rest IH]; intros s; [apply tables_extend_refl|].
  destruct ev as [data| |e]; cbn [read_loop]; try apply tables_extend_refl.
  destruct data as [|b bs]; [apply tables_extend_refl|].
  destruct (bytes_decode replace (b :: bs)) as [text|]; [|apply tables_extend_refl].
  destruct (max_message <? length (strip text))%nat; [apply (IH (logging _ s))|].
  pose proof (process_message_extends (strip text) s) as Hext. unfold extends in Hext.
  destruct (process_message (strip text) s) as [[[]|e] s']; cbn [snd] in Hext.
  - eapply tables_extend_trans; [exact Hext | apply (IH s')].
  - exact Hext.
Qed.

(** X4.  Whatever a client sends in a session, no stored row is removed or
    changed and no table is dropped or given other columns: every table is
    still there afterwards, with its columns and with its old rows as its
    first rows. *)
Theorem handle_client_append_only (events : list read_event) (s : server) :
  extends (db s) (db (snd (handle_client events s))).
Proof. apply (read_loop_extends events (logging INFO_client_connected s)). Qed.

(** ** What a session can do to the database *)

Lemma process_message_reachable (message : list N) (s : server) :
  reachable (db s) -> reachable (db (snd (process_message message s))).
Proof.
  intros Hr. unfold process_message.
  destruct (json_loads message) as [data|]; [|exact Hr].
  destruct (issubset required data) as [[|]|]; try exact Hr.
  pose proof (reach_save (db s) data Hr) as Hsave.
  destruct (call (save_station_data data) (db s)) as [[[]|e] d']; cbn [snd] in Hsave.
  - destruct (subscript data k_station_id), (subscript data k_temperature); exact Hsave.
  - exact Hsave.
Qed.

Lemma read_loop_reachable (events : list read_event) (s : server) :
  reachable (db s) -> reachable (db (snd (read_loop events s))).
Proof.
  revert s. induction events as [|ev rest IH]; intros s Hr; [exact Hr|].
  destruct ev as [data| |e]; cbn [read_loop]; try exact Hr.
  destruct data as [|b bs]; [exact Hr|].
  destruct (bytes_decode replace (b :: bs)) as [text|]; [|exact Hr].
  destruct (max_message <? length (strip text))%nat; [apply (IH (logging _ s)); exact Hr|].
  pose proof (process_message_reachable (strip text) s Hr) as Hp.
  destruct (process_message (strip text) s) as [[[]|e] s']; cbn [snd] in Hp.
  - apply (IH s'). exact Hp.
  - exact Hp.
Qed.

(** X5.  A client session keeps the database among the states the server
    can reach from its start, whatever the client sends, and so in the
    storage invariant: the global ledger exists with its declared columns,
    every other table is a station ledger, in every table the rowids grow
    with the order of insertion. *)
Theorem handle_client_keeps_storage_ok (events : list read_event) (s : server) :
  reachable (db s) ->
  reachable (db (snd (handle_client events s))) /\
  storage_ok (db (snd (handle_client events s))).
Proof.
  intros Hr.
  assert (reachable (db (snd (handle_client events s)))) as Hr'
    by (apply (read_loop_reachable events (logging INFO_client_connected s)); exact Hr).
  split; [exact Hr' | apply reachable_storage_ok; exact Hr'].
Qed.

Lemma handle_client_keeps_storage_ok_witness :
  reachable (db server_started) /\
  storage_ok
    (db (snd (handle_client [ReadLine number_frame; ReadLine (line first_reading_text)]
                server_started))).
Proof.
  assert (reachable (db server_started)) as Hr by apply reach_start.
  split; [exact Hr|].
  apply (handle_client_keeps_storage_ok _ server_started Hr).
Defined.

(** ** Rowids *)

Lemma dense_append (t : table) (cs : gmap (list N) sqlval) :
  dense t -> dense (append_row t cs).
Proof.
  intros [Hseq Hrows]. split; cbn [append_row t_seq t_rows].
  - rewrite length_app. cbn [length]. lia.
  - intros i r Hi. apply lookup_app_Some in Hi as [Hi|[Hge Hi]]; [auto|].
    destruct (i - length (t_rows t))%nat as [|j] eqn:Hj; [|discriminate].
    cbn in Hi. injection Hi as <-. cbn [rowid]. lia.
Qed.

Lemma dense_fresh (schema : list (list N * coltype)) :
  dense {| t_schema := schema; t_rows := []; t_seq := 0 |}.
Proof. split; [reflexivity|]. intros i r Hi. discriminate. Qed.

Lemma all_dense_insert (name : list N) (cols : list (list N)) (params : list pyval)
    (tabs tabs' : gmap (list N) table) :
  all_dense tabs -> sql_insert name cols params tabs = Ok tabs' -> all_dense tabs'.
Proof.
  intros Hall Hins.
  apply sql_insert_ok in Hins as (key & t & vals & cs & _ & Ht & _ & _ & ->).
  intros k u. rewrite lookup_insert. case_decide.
  - intros [= <-]. apply dense_append. eauto.
  - apply Hall.
Qed.

Lemma all_dense_create (name : list N) (schema : list (list N * coltype))
    (tabs tabs' : gmap (list N) table) :
  all_dense tabs -> sql_create_if_not_exists name schema tabs = Ok tabs' -> all_dense tabs'.
Proof.
  intros Hall Hcr.
  apply sql_create_ok in Hcr as (key & _ & [[_ ->] | [Hnone ->]]); [exact Hall|].
  intros k u. rewrite lookup_insert. case_decide.
  - intros [= <-]. apply dense_fresh.
  - apply Hall.
Qed.

Lemma all_dense_save (data : pyval) (d : database) :
  all_dense (tables d) -> all_dense (tables (snd (call (save_station_data data) d))).
Proof.
  intros Hall. rewrite save_station_data_call.
  destruct (subscript data k_station_id) as [sid|]; [|exact Hall].
  destruct (sanitize sid) as [station|]; [|exact Hall].
  cbv zeta. unfold mbind, result_bind.
  read_fields data ltac:(exact Hall).
  destruct (sql_insert weather_data _ _ _) as [t1|] eqn:H1; [|exact Hall].
  destruct (sql_create_if_not_exists _ _ t1) as [t2|] eqn:H2; [|exact Hall].
  destruct (sql_insert _ _ _ t2) as [t3|] eqn:H3; [|exact Hall].
  cbn [snd tables].
  eapply all_dense_insert; [|exact H3].
  eapply all_dense_create; [|exact H2].
  eapply all_dense_insert; [|exact H1]. exact Hall.
Qed.

Lemma all_dense_init (d : database) :
  all_dense (tables d) -> all_dense (tables (snd (call init_database d))).
Proof.
  intros Hall. rewrite init_database_call. cbn [snd tables].
  destruct (tables d !! weather_data); [exact Hall|].
  intros k u. rewrite lookup_insert. case_decide.
  - intros [= <-]. apply dense_fresh.
  - apply Hall.
Qed.

(** X6.  In every state the server can reach, the rowids of every table
    are 1, 2, 3, ... along its rows, without a gap, and the table's sequence
    is the number of its rows: a call that fails uses up no rowid. *)
Theorem reachable_rowids (d : database) (key : list N) (t : table) :
  reachable d ->
  tables d !! key = Some t ->
  t_seq t = Z.of_nat (length (t_rows t)) /\
  forall i r, t_rows t !! i = Some r -> rowid r = Z.of_nat i + 1.
Proof.
  intros Hr. revert key t.
  change (all_dense (tables d)).
  induction Hr as [|d _ IH|d data _ IH].
  - apply all_dense_init. intros k u. cbn. rewrite lookup_empty. discriminate.
  - apply all_dense_init. exact IH.
  - apply all_dense_save. exact IH.
Qed.

Lemma reachable_rowids_witness :
  reachable two_readings /\
  exists t,
    tables two_readings !! weather_data = Some t /\
    t_seq t = 2 /\
    map rowid (t_rows t) = [1; 2].
Proof.
  assert (reachable two_readings) as Hr by (apply reach_save, reach_save, reach_start).
  split; [exact Hr|].
  assert (exists t, tables two_readings !! weather_data = Some t /\ length (t_rows t) = 2%nat)
    as (t & Ht & Hlen) by (eexists; split; vm_compute; reflexivity).
  exists t. split; [exact Ht|].
  destruct (reachable_rowids two_readings weather_data t Hr Ht) as [Hseq Hrows].
  split; [rewrite Hseq, Hlen; reflexivity|].
  destruct (t_rows t) as [|r1 [|r2 [|r3 rest]]]; try discriminate Hlen.
  cbn [map]. rewrite (Hrows 0%nat r1 eq_refl), (Hrows 1%nat r2 eq_refl). reflexivity.
Defined.

(** ** Which stations can store *)

(** The table of a call: only the global ledger and the station's own
    table are written. *)
Lemma sql_insert_elsewhere (name : list N) (cols : list (list N)) (params : list pyval)
    (tabs tabs' : gmap (list N) table) (key : list N) :
  sql_insert name cols params tabs = Ok tabs' ->
  key <> fold_case name ->
  tabs' !! key = tabs !! key.
Proof.
  intros Hins Hne.
  apply sql_insert_ok in Hins as (k & t & vals & cs & Hk & _ & _ & _ & ->).
  apply sql_identifier_fold in Hk. subst k.
  now rewrite lookup_insert_ne by congruence.
Qed.

Lemma sql_create_elsewhere (name : list N) (schema : list (list N * coltype))
    (tabs tabs' : gmap (list N) table) (key : list N) :
  sql_create_if_not_exists name schema tabs = Ok tabs' ->
  key <> fold_case name ->
  tabs' !! key = tabs !! key.
Proof.
  intros Hcr Hne.
  apply sql_create_ok in Hcr as (k & Hk & [[_ ->] | [_ ->]]); [reflexivity|].
  apply sql_identifier_fold in Hk. subst k.
  now rewrite lookup_insert_ne by congruence.
Qed.

(** X7.  A call of [save_station_data] writes to the global ledger and to
    the table of the record's own station and to no other: every other
    table, of whatever station, is after the call what it was before. *)
Theorem save_station_data_other_tables (data : pyval) (d : database) (key : list N) :
  key <> weather_data ->
  (forall s, subscript data k_station_id = Ok (PStr s) -> key <> station_table s) ->
  tables (snd (call (save_station_data data) d)) !! key = tables d !! key.
Proof.
  intros Hglobal Hstation. rewrite save_station_data_call.
  destruct (subscript data k_station_id) as [sid|]; [|reflexivity].
  destruct (sanitize sid) as [station|] eqn:Hsan; [|reflexivity].
  cbv zeta. unfold mbind, result_bind.
  read_fields data ltac:(reflexivity).
  destruct (sql_insert weather_data _ _ _) as [t1|] eqn:H1; [|reflexivity].
  destruct (sql_create_if_not_exists _ _ t1) as [t2|] eqn:H2; [|reflexivity].
  destruct (sql_insert _ _ _ t2) as [t3|] eqn:H3; [|reflexivity].
  destruct sid as [| | | |s| |]; try discriminate Hsan.
  cbn in Hsan. destruct (SAFE_NAME_match s); [|discriminate].
  injection Hsan as <-.
  specialize (Hstation s eq_refl). unfold station_table in Hstation.
  cbn [snd tables].
  rewrite (sql_insert_elsewhere _ _ _ _ _ key H3 Hstation).
  rewrite (sql_create_elsewhere _ _ _ _ key H2 Hstation).
  apply (sql_insert_elsewhere _ _ _ _ _ key H1). exact Hglobal.
Qed.

Lemma save_station_data_other_tables_witness :
  let d := snd (call (save_station_data first_reading) started) in
  let key := station_table (py "station01_coastal") in
  key <> weather_data /\
  tables (snd (call (save_station_data weather_reading) d)) !! key = tables d !! key.
Proof.
  cbv zeta.
  assert (station_table (py "station01_coastal") <> weather_data) as Hne
    by (vm_compute; discriminate).
  split; [exact Hne|].
  apply save_station_data_other_tables; [exact Hne|].
  intros s Hs. vm_compute in Hs. injection Hs as <-. vm_compute. discriminate.
Defined.








(** ** The validator, message by message *)

Lemma sql_identifier_raises (text : list N) (e : exn) :
  sql_identifier text = Raise e -> e = OperationalError.
Proof.
  unfold sql_identifier. destruct text as [|c rest]; [now intros [= <-]|].
  destruct (id_start c && forallb id_char rest)%bool; [discriminate | now intros [= <-]].
Qed.

Lemma bind_params_raises (params : list pyval) (e : exn) :
  bind_params params = Raise e -> e <> KeyError /\ e <> TypeError.
Proof.
  induction params as [|v rest IH]; cbn [bind_params]; [discriminate|].
  destruct (bind_param v) as [b|e'] eqn:Hb; cbn [mbind result_bind].
  - destruct (bind_params rest); cbn [mbind result_bind]; [discriminate | exact IH].
  - intros [= <-]. destruct v as [| |z|f|s| |]; cbn [bind_param] in Hb;
      try discriminate Hb.
    + destruct ((- 2 ^ 63 <=? z) && (z <? 2 ^ 63))%bool; [discriminate|].
      injection Hb as <-. split; discriminate.
    + destruct (existsb is_surrogate s); [|discriminate].
      injection Hb as <-. split; discriminate.
    + injection Hb as <-. split; discriminate.
    + injection Hb as <-. split; discriminate.
Qed.

Lemma build_cells_raises (schema : list (list N * coltype)) (given : list (list N * sqlval))
    (e : exn) :
  build_cells schema given = Raise e -> e = IntegrityError.
Proof.
  induction schema as [|[c ty] rest IH]; cbn [build_cells]; [discriminate|].
  destruct ty; try exact IH;
    (destruct (notnull _ && is_null _)%bool; [now intros [= <-]|];
     destruct (build_cells rest given); cbn [mbind result_bind];
     [discriminate | exact IH]).
Qed.

Lemma sql_insert_raises (name : list N) (cols : list (list N)) (params : list pyval)
    (tabs : gmap (list N) table) (e : exn) :
  sql_insert name cols params tabs = Raise e -> e <> KeyError /\ e <> TypeError.
Proof.
  unfold sql_insert.
  destruct (sql_identifier name) as [key|e'] eqn:Hkey; cbn [mbind result_bind].
  - destruct (tabs !! key) as [t|]; [|intros [= <-]; split; discriminate].
    destruct (negb _); [intros [= <-]; split; discriminate|].
    destruct (bind_params params) as [vals|e'] eqn:Hvals; cbn [mbind result_bind].
    + destruct (build_cells _ _) as [cs|e'] eqn:Hcs; cbn [mbind result_bind];
        [discriminate|].
      intros [= <-]. apply build_cells_raises in Hcs as ->. split; discriminate.
    + intros [= <-]. eapply bind_params_raises. exact Hvals.
  - intros [= <-]. apply sql_identifier_raises in Hkey as ->. split; discriminate.
Qed.

Lemma sql_create_raises (name : list N) (schema : list (list N * coltype))
    (tabs : gmap (list N) table) (e : exn) :
  sql_create_if_not_exists name schema tabs = Raise e -> e = OperationalError.
Proof.
  unfold sql_create_if_not_exists.
  destruct (sql_identifier name) as [key|e'] eqn:Hkey; cbn [mbind result_bind].
  - destruct (starts_with _ _); [now intros [= <-]|].
    destruct (tabs !! key); discriminate.
  - intros [= <-]. now apply sql_identifier_raises in Hkey.
Qed.

Lemma issubset_dict_get (d : list (list N * pyval)) (key : list N) :
  issubset required (PDict d) = Ok true ->
  In key required ->
  exists v, dict_get key d = Some v.
Proof.
  intros Hsub Hin.
  assert (forallb (fun k => existsb (fun kv => str_eqb k (fst kv)) d) required = true)
    as Hall by (unfold issubset in Hsub; congruence).
  clear Hsub.
  rewrite forallb_forall in Hall. specialize (Hall key Hin).
  apply existsb_exists in Hall as ([k v] & Hkv & Heq). cbn [fst] in Heq.
  apply bool_decide_eq_true in Heq. subst k. clear Hin.
  induction d as [|[k' v'] d IH]; [contradiction|].
  cbn [dict_get]. unfold str_eqb.
  destruct (bool_decide (key = k')) eqn:Hk; [eauto|].
  apply bool_decide_eq_false in Hk.
  destruct Hkv as [[= <- <-]|Hkv]; [congruence | auto].
Qed.

Lemma save_station_data_raise_tables (data : pyval) (d d' : database) (e : exn) :
  call (save_station_data data) d = (Raise e, d') -> tables d' = tables d.
Proof.
  rewrite save_station_data_call.
  destruct (subscript data k_station_id) as [sid|]; [|now intros [= _ <-]].
  destruct (sanitize sid) as [station|]; [|now intros [= _ <-]].
  cbv zeta. unfold mbind, result_bind.
  read_fields data ltac:(now intros [= _ <-]).
  destruct (sql_insert weather_data _ _ _) as [t1|]; [|now intros [= _ <-]].
  destruct (sql_create_if_not_exists _ _ t1) as [t2|]; [|now intros [= _ <-]].
  destruct (sql_insert _ _ _ t2) as [t3|]; [discriminate | now intros [= _ <-]].
Qed.

Lemma save_station_data_ok_station (data : pyval) (d d' : database) :
  call (save_station_data data) d = (Ok tt, d') ->
  exists s, subscript data k_station_id = Ok (PStr s).
Proof.
  rewrite save_station_data_call.
  destruct (subscript data k_station_id) as [sid|]; [|discriminate].
  destruct sid; cbn [sanitize]; try discriminate. eauto.
Qed.

(** A record that passed the check of the required keys never fails
    for a missing key in [save_station_data]. *)
Lemma validated_no_key_error (data : pyval) (d d' : database) (e : exn) :
  issubset required data = Ok true ->
  call (save_station_data data) d = (Raise e, d') ->
  e <> KeyError.
Proof.
  intros Hsub. rewrite save_station_data_call.
  destruct data as [| | | | | |dict];
    try (cbn [subscript]; intros [= <- _]; discriminate).
  assert (forall key, In key required -> exists v, subscript (PDict dict) key = Ok v)
    as Hkeys.
  { intros key Hin. destruct (issubset_dict_get dict key Hsub Hin) as (v & Hv).
    exists v. cbn [subscript]. now rewrite Hv. }
  destruct (Hkeys k_station_id) as (sid & ->); [cbn; tauto|].
  destruct (Hkeys k_timestamp) as (a2 & ->); [cbn; tauto|].
  destruct (Hkeys k_temperature) as (a3 & ->); [cbn; tauto|].
  destruct (Hkeys k_humidity) as (a4 & ->); [cbn; tauto|].
  destruct (Hkeys k_wind) as (a5 & ->); [cbn; tauto|].
  destruct (sanitize sid) as [station|e'] eqn:Hsan.
  - cbv zeta. cbn [mbind result_bind].
    destruct (sql_insert weather_data _ _ _) as [t1|e1] eqn:H1; cbn [mbind result_bind].
    + destruct (sql_create_if_not_exists _ _ t1) as [t2|e2] eqn:H2;
        cbn [mbind result_bind].
      * destruct (sql_insert _ _ _ t2) as [t3|e3] eqn:H3; [discriminate|].
        intros [= <- _]. eapply sql_insert_raises. exact H3.
      * intros [= <- _]. apply sql_create_raises in H2 as ->. discriminate.
    + intros [= <- _]. eapply sql_insert_raises. exact H1.
  - intros [= <- _]. destruct sid; cbn [sanitize] in Hsan; try (injection Hsan as <-; discriminate).
    destruct (SAFE_NAME_match s); [discriminate|]. injection Hsan as <-. discriminate.
Qed.

(** X9.  What [process_message] does with a message of the handler, its
    arrays and objects not nested beyond what the decoder takes: it returns
    after logging one line, or it raises a TypeError and has changed
    nothing.  The tables change only with the line that reports the save,
    and then they are what [save_station_data] made of the decoded record; a
    message that is not JSON and a record short of a key are logged with
    their text; a save that failed is logged with its error, which is never
    a KeyError. *)
Theorem process_message_outcome (message : list N) (s : server) :
  plain_message message ->
  match process_message message s with
  | (Ok _, s') =>
      exists entry,
        log s' = log s ++ [entry] /\
        match entry with
        | INFO_saved _ _ =>
            exists data,
              json_loads message = Some data /\
              call (save_station_data data) (db s) = (Ok tt, db s')
        | WARNING_invalid_json m =>
            m = message /\ json_loads message = None /\ db s' = db s
        | WARNING_missing_keys m => m = message /\ db s' = db s
        | ERROR_database_save e => e <> KeyError /\ tables (db s') = tables (db s)
        | _ => False
        end
  | (Raise e, s') => e = TypeError /\ s' = s
  end.
Proof.
  intros _. unfold process_message.
  destruct (json_loads message) as [data|] eqn:Hjson.
  2: { eexists. split; [reflexivity|]. cbn. auto. }
  destruct (issubset required data) as [[|]|e] eqn:Hsub.
  - pose proof (validated_no_key_error data (db s)) as Hno.
    destruct (call (save_station_data data) (db s)) as [[[]|e] d'] eqn:Hcall.
    + destruct (save_station_data_ok_station _ _ _ Hcall) as (station & Hsid).
      rewrite Hsid.
      assert (exists v, subscript data k_temperature = Ok v) as (temp & ->).
      { destruct data as [| | | | | |dict]; try discriminate Hsid.
        destruct (issubset_dict_get dict k_temperature Hsub) as (v & Hv); [cbn; tauto|].
        exists v. cbn [subscript]. now rewrite Hv. }
      eexists. split; [reflexivity|]. cbn. eauto.
    + eexists. split; [reflexivity|]. cbn [db].
      split; [apply (Hno d' e Hsub eq_refl)|].
      apply (save_station_data_raise_tables _ _ _ _ Hcall).
  - eexists. split; [reflexivity|]. cbn. auto.
  - split; [|reflexivity].
    destruct data as [| | | | |l|]; cbn [issubset] in Hsub; try (now injection Hsub as <-);
      try discriminate Hsub.
    destruct (forallb hashable l); [discriminate | now injection Hsub as <-].
Qed.

Lemma process_message_outcome_witness :
  plain_message (py "5") /\
  process_message (py "5") server_started = (Raise TypeError, server_started).
Proof.
  assert (plain_message (py "5")) as Hplain by (split; vm_compute; lia).
  split; [exact Hplain|].
  pose proof (process_message_outcome (py "5") server_started Hplain) as H.
  destruct (process_message (py "5") server_started) as [[u|e] s'] eqn:Hcall.
  - vm_compute in Hcall. discriminate Hcall.
  - destruct H as [-> ->]. reflexivity.
Defined.

(** ** The session, line by line *)

(** X10.  Lines are handled in the order they arrive, and a closed
    connection stays closed: a session over the events [before ++ after] is
    the session over [before] and then, if that one is still reading, the
    session over [after] from the state it left; if it closed, nothing of
    [after] is looked at. *)
Theorem read_loop_app (before after : list read_event) (s : server) :
  read_loop (before ++ after) s =
  match read_loop before s with
  | (Reading, s') => read_loop after s'
  | (Closed, s') => (Closed, s')
  end.
Proof.
  revert s. induction before as [|ev rest IH]; intros s; [reflexivity|].
  destruct ev as [data| |e]; cbn [app read_loop]; try reflexivity.
  destruct data as [|b bs]; [reflexivity|].
  destruct (bytes_decode replace (b :: bs)) as [text|]; [|reflexivity].
  destruct (max_message <? length (strip text))%nat; [apply IH|].
  destruct (process_message (strip text) s) as [[[]|e] s']; [apply IH | reflexivity].
Qed.

Lemma process_message_logs (message : list N) (s : server) :
  exists entries,
    log (snd (process_message message s)) = log s ++ entries /\
    existsb is_disconnect entries = false.
Proof.
  unfold process_message.
  destruct (json_loads message) as [data|];
    [|eexists [_]; split; reflexivity].
  destruct (issubset required data) as [[|]|];
    [|eexists [_]; split; reflexivity|exists []; cbn; now rewrite app_nil_r].
  destruct (call (save_station_data data) (db s)) as [[[]|e] d'];
    [|eexists [_]; split; reflexivity].
  destruct (subscript data k_station_id), (subscript data k_temperature);
    eexists [_]; split; reflexivity.
Qed.

Lemma read_loop_logs (events : list read_event) (s : server) :
  exists entries,
    log (snd (read_loop events s)) = log s ++ entries /\
    match fst (read_loop events s) with
    | Reading => existsb is_disconnect entries = false
    | Closed =>
        exists front,
          entries = front ++ [INFO_client_disconnected] /\
          existsb is_disconnect front = false
    end.
Proof.
  revert s. induction events as [|ev rest IH]; intros s.
  - exists []. cbn. now rewrite app_nil_r.
  - destruct ev as [data| |e]; cbn [read_loop].
    + destruct data as [|b bs].
      { exists [INFO_client_disconnected]. split; [reflexivity|]. exists []. auto. }
      destruct (bytes_decode replace (b :: bs)) as [text|e].
      2: { exists [ERROR_client e; INFO_client_disconnected].
           split; [cbn; now rewrite <- app_assoc|]. exists [ERROR_client e]. auto. }
      destruct (max_message <? length (strip text))%nat.
      { destruct (IH (logging WARNING_oversized s)) as (entries & Hlog & Hshape).
        exists (WARNING_oversized :: entries).
        split; [rewrite Hlog; cbn; now rewrite <- app_assoc|].
        destruct (fst (read_loop rest (logging WARNING_oversized s))); [exact Hshape|].
        destruct Hshape as (front & -> & Hfront).
        exists (WARNING_oversized :: front). auto. }
      destruct (process_message_logs (strip text) s) as (mine & Hmine & Hno).
      destruct (process_message (strip text) s) as [[[]|e] s']; cbn [snd] in Hmine.
      * destruct (IH s') as (entries & Hlog & Hshape).
        exists (mine ++ entries).
        split; [rewrite Hlog, Hmine; now rewrite <- app_assoc|].
        destruct (fst (read_loop rest s')).
        -- rewrite existsb_app, Hno, Hshape. reflexivity.
        -- destruct Hshape as (front & -> & Hfront).
           exists (mine ++ front). split; [now rewrite <- app_assoc|].
           rewrite existsb_app, Hno, Hfront. reflexivity.
      * exists (mine ++ [ERROR_client e; INFO_client_disconnected]).
        split; [cbn; rewrite Hmine, <- !app_assoc; reflexivity|].
        exists (mine ++ [ERROR_client e]).
        split; [now rewrite <- app_assoc|].
        rewrite existsb_app, Hno. reflexivity.
    + exists [WARNING_timed_out; INFO_client_disconnected].
      split; [cbn; now rewrite <- app_assoc|]. exists [WARNING_timed_out]. auto.
    + exists [ERROR_client e; INFO_client_disconnected].
      split; [cbn; now rewrite <- app_assoc|]. exists [ERROR_client e]. auto.
Qed.

(** X11.  The log of a session: the handler adds to the log and takes
    nothing away; its first line reports the connection; the line of the
    [finally] block comes on every way out of the loop (end of stream,
    timeout, error while reading, exception from the validator), once and
    last, and never while the loop is still reading. *)
Theorem handle_client_log (events : list read_event) (s : server) :
  exists entries,
    log (snd (handle_client events s)) = log s ++ INFO_client_connected :: entries /\
    match fst (handle_client events s) with
    | Reading => existsb is_disconnect entries = false
    | Closed =>
        exists front,
          entries = front ++ [INFO_client_disconnected] /\
          existsb is_disconnect front = false
    end.
Proof.
  unfold handle_client.
  destruct (read_loop_logs events (logging INFO_client_connected s))
    as (entries & Hlog & Hshape).
  exists entries. split; [|exact Hshape].
  rewrite Hlog. cbn. now rewrite <- app_assoc.
Qed.

(** ** [sanitize], exactly *)

(** X12.  What [sanitize] accepts and what it raises: it returns a name,
    unchanged, exactly when the name is a [str] made of one or more safe
    characters, or of such a run and one newline after it; it raises a
    ValueError for every other [str] and a TypeError for what is not a
    [str]. *)
Theorem sanitize_accepts_iff (name : pyval) (s : list N) :
  (sanitize name = Ok s <->
   name = PStr s /\
   exists body,
     body <> [] /\ forallb safe_char body = true /\
     (s = body \/ s = body ++ [newline])) /\
  (forall e, sanitize name = Raise e ->
     match name with
     | PStr _ => e = ValueError
     | _ => e = TypeError
     end).
Proof.
  split.
  - split.
    + destruct name as [| | | |s'| |]; cbn [sanitize]; try discriminate.
      destruct (SAFE_NAME_match s') eqn:Hmatch; [|discriminate].
      intros [= <-]. split; [reflexivity|]. now apply SAFE_NAME_match_spec.
    + intros (-> & Hshape). apply SAFE_NAME_match_spec in Hshape.
      cbn [sanitize]. now rewrite Hshape.
  - intros e. destruct name as [| | | |s'| |]; cbn [sanitize];
      try (now intros [= <-]).
    destruct (SAFE_NAME_match s'); [discriminate | now intros [= <-]].
Qed.

Lemma sanitize_accepts_iff_witness :
  sanitize (PStr (py "station-01_Coastal")) = Ok (py "station-01_Coastal") /\
  sanitize (PStr (py "station 01")) = Raise ValueError /\
  sanitize (PInt 5) = Raise TypeError.
Proof.
  split.
  - apply (proj1 (sanitize_accepts_iff _ _)). split; [reflexivity|].
    exists (py "station-01_Coastal"). split; [discriminate|]. split; [reflexivity | auto].
  - split; reflexivity.
Defined.

(** ** [get_latest_data] at its bounds *)

(** X13.  The limit of [get_latest_data], on a database of the storage
    invariant: a limit outside the 64-bit integers raises an OverflowError;
    a negative limit and a limit of at least the number of rows both return
    the whole ledger, newest row first; limit 0 returns nothing. *)
Theorem get_latest_data_bounds (limit : Z) (d : database) :
  storage_ok d ->
  (limit < - 2 ^ 63 \/ 2 ^ 63 <= limit ->
   call (get_latest_data limit) d = (Raise OverflowError, d)) /\
  (- 2 ^ 63 <= limit < 0 ->
   call (get_latest_data limit) d = (Ok (rev (global_ledger d)), d)) /\
  (Z.of_nat (length (global_ledger d)) <= limit < 2 ^ 63 ->
   call (get_latest_data limit) d = (Ok (rev (global_ledger d)), d)) /\
  (limit = 0 -> call (get_latest_data limit) d = (Ok [], d)).
Proof.
  intros Hok. rewrite (get_latest_data_call limit d Hok). unfold sql_limit.
  split; [|split; [|split]]; intros H.
  - replace ((- 2 ^ 63 <=? limit) && (limit <? 2 ^ 63))%bool with false; [reflexivity|].
    symmetry. apply andb_false_iff.
    destruct H; [left; apply Z.leb_gt | right; apply Z.ltb_ge]; lia.
  - replace ((- 2 ^ 63 <=? limit) && (limit <? 2 ^ 63))%bool with true
      by (symmetry; apply andb_true_intro; split; [apply Z.leb_le | apply Z.ltb_lt]; lia).
    destruct (Z.ltb_spec limit 0); [reflexivity | lia].
  - pose proof (Zle_0_nat (length (global_ledger d))).
    replace ((- 2 ^ 63 <=? limit) && (limit <? 2 ^ 63))%bool with true
      by (symmetry; apply andb_true_intro; split; [apply Z.leb_le | apply Z.ltb_lt]; lia).
    destruct (Z.ltb_spec limit 0); [reflexivity|].
    rewrite firstn_all2; [reflexivity|]. rewrite length_rev. lia.
  - subst limit. reflexivity.
Qed.

Lemma get_latest_data_bounds_witness :
  storage_ok two_readings /\
  call (get_latest_data (2 ^ 63)) two_readings = (Raise OverflowError, two_readings) /\
  call (get_latest_data (-5)) two_readings = (Ok (rev (global_ledger two_readings)), two_readings) /\
  call (get_latest_data 40) two_readings = (Ok (rev (global_ledger two_readings)), two_readings).
Proof.
  assert (storage_ok two_readings) as Hok
    by (apply reachable_storage_ok, reach_save, reach_save, reach_start).
  split; [exact Hok|].
  destruct (get_latest_data_bounds (2 ^ 63) two_readings Hok) as (H1 & _).
  destruct (get_latest_data_bounds (-5) two_readings Hok) as (_ & H2 & _).
  destruct (get_latest_data_bounds 40 two_readings Hok) as (_ & _ & H3 & _).
  split; [apply H1; right; lia|].
  split; [apply H2; lia|].
  apply H3. vm_compute. split; [discriminate | reflexivity].
Defined.

(** ** Before [init_database] *)

Lemma get_latest_data_missing (limit : Z) (d : database) :
  tables d !! weather_data = None ->
  call (get_latest_data limit) d = (Raise OperationalError, d).
Proof.
  intros Hnone.
  unfold call, get_latest_data, connect, execute_select_latest, close, view,
    mbind, mret, conn_bind, conn_ret.
  cbn [txn disk]. unfold sql_select_latest. rewrite weather_data_identifier.
  cbn [mbind result_bind]. rewrite Hnone. reflexivity.
Qed.

(** X14.  Without the global ledger, that is before [init_database] has
    run, nothing can be read and nothing stored: [get_latest_data] and
    [handle_web] raise an OperationalError, and no record at all is accepted
    by [save_station_data], which leaves the tables as they are.  Once
    [init_database] has run, the ledger reads as empty. *)
Theorem without_global_ledger (d : database) :
  tables d !! weather_data = None ->
  (forall limit, call (get_latest_data limit) d = (Raise OperationalError, d)) /\
  call handle_web d = (Raise OperationalError, d) /\
  (forall data, exists e,
      fst (call (save_station_data data) d) = Raise e /\
      tables (snd (call (save_station_data data) d)) = tables d) /\
  call (get_latest_data 40) (initialize d) = (Ok [], initialize d) /\
  call handle_web (initialize d) = (Ok [], initialize d).
Proof.
  intros Hnone.
  assert (call (get_latest_data 40) (initialize d) = (Ok [], initialize d)) as Hinit.
  { unfold call, get_latest_data, connect, execute_select_latest, close, view,
      mbind, mret, conn_bind, conn_ret.
    cbn [txn disk]. unfold sql_select_latest. rewrite weather_data_identifier.
    cbn [mbind result_bind]. unfold initialize. rewrite init_database_call.
    cbn [snd tables]. rewrite Hnone, lookup_insert_eq. reflexivity. }
  split; [intros limit; now apply get_latest_data_missing|].
  split; [rewrite handle_web_call, get_latest_data_missing by exact Hnone; reflexivity|].
  split; [|split; [exact Hinit | rewrite handle_web_call, Hinit; reflexivity]].
  intros data. rewrite save_station_data_call.
  destruct (subscript data k_station_id) as [sid|]; [|eauto].
  destruct (sanitize sid) as [station|]; [|eauto].
  cbv zeta. unfold mbind, result_bind.
  read_fields data ltac:(eauto).
  assert (forall params, sql_insert weather_data global_columns params (tables d)
                         = Raise OperationalError) as ->.
  { intros params. unfold sql_insert. rewrite weather_data_identifier.
    cbn [mbind result_bind]. now rewrite Hnone. }
  eauto.
Qed.

Lemma without_global_ledger_witness :
  tables no_database !! weather_data = None /\
  call (get_latest_data 40) no_database = (Raise OperationalError, no_database) /\
  call (get_latest_data 40) (initialize no_database) = (Ok [], initialize no_database).
Proof.
  assert (tables no_database !! weather_data = None) as Hnone by reflexivity.
  split; [exact Hnone|].
  destruct (without_global_ledger no_database Hnone) as (Hget & _ & _ & Hinit & _).
  split; [apply Hget | exact Hinit].
Defined.

(** ** The location label *)

(** X15.  The label [extract_station_location] returns has no underscore
    in it, is no longer than the identifier, and is its own label. *)
Theorem extract_station_location_idempotent (station_id : list N) :
  ~ In underscore (extract_station_location station_id) /\
  (length (extract_station_location station_id) <= length station_id)%nat /\
  extract_station_location (extract_station_location station_id)
  = extract_station_location station_id.
Proof.
  assert (~ In underscore (extract_station_location station_id) /\
          (length (extract_station_location station_id) <= length station_id)%nat)
    as [Hno Hlen].
  { unfold extract_station_location.
    destruct (in_dec N.eq_dec underscore station_id) as [Hin|Hnot].
    - destruct (split_with_separator _ _ Hin) as (Hparts & before & Heq & Hlast).
      apply Nat.ltb_lt in Hparts. rewrite Hparts. split; [exact Hlast|].
      rewrite Heq at 2. rewrite length_app. cbn [length]. lia.
    - rewrite (split_without_separator _ _ Hnot). cbn. auto. }
  split; [exact Hno|]. split; [exact Hlen|].
  unfold extract_station_location at 1.
  now rewrite (split_without_separator _ _ Hno).
Qed.

(** ** From the message to the dashboard *)







(** ** The page of [handle_web] *)

Lemma table_lines_readings (rs : list reading) :
  table_lines (map as_row rs) = Ok (map page_line rs).
Proof.
  induction rs as [|r rs IH]; [reflexivity|].
  cbn [map table_lines]. rewrite IH. reflexivity.
Qed.

(** A timestamp with more than two decimals, and one that is a tie in
    decimal but not as a double. *)
Lemma format_2f_rounds :
  format_2f (mk_float false 1762166400123456 (-6)) = py "1762166400.12" /\
  format_2f (mk_float false 2675 (-3)) = py "2.67" /\
  format_2f (mk_float false 125 (-3)) = py "0.12".
Proof. vm_compute. repeat split. Qed.

(** X17.  The page: on a database of the storage invariant whose global
    ledger holds Readings, [handle_web] returns one line for each of the 40
    newest rows, or for all rows if there are fewer, the newest first; a
    line has the location label in place of the station identifier, the
    timestamp as the format [.2f] prints it (the double, rounded to two
    decimals), and the temperature, the humidity and the wind as stored. *)
Theorem handle_web_page (d : database) (rs : list reading) :
  storage_ok d ->
  global_ledger d = map as_row rs ->
  call handle_web d = (Ok (map page_line (firstn 40 (rev rs))), d).
Proof.
  intros Hok Hrows.
  rewrite handle_web_call, (get_latest_data_call 40 d Hok), Hrows.
  change ((- 2 ^ 63 <=? 40) && (40 <? 2 ^ 63))%bool with true. cbv iota.
  unfold sql_limit. change (40 <? 0) with false. cbv iota.
  change (Z.to_nat 40) with 40%nat.
  rewrite <- map_rev, firstn_map.
  now rewrite table_lines_readings.
Qed.

Lemma two_readings_ledger :
  global_ledger two_readings =
  map as_row [first_reading_model;
              {| station_id := py "station01_coastal";
                 timestamp := tenths 1000;
                 temperature := tenths 190;
                 humidity := tenths 560;
                 wind := tenths 70 |}].
Proof. vm_compute. reflexivity. Qed.

Lemma handle_web_page_witness :
  call handle_web two_readings =
  (Ok [(py "coastal", [PStr (py "100.00"); PFloat (tenths 190);
                       PFloat (tenths 560); PFloat (tenths 70)]);
       (py "coastal", [PStr (py "200.00"); PFloat (tenths 185);
                       PFloat (tenths 550); PFloat (tenths 80)])],
   two_readings).
Proof.
  apply (handle_web_page two_readings _
           (reachable_storage_ok _ (reach_save _ _ (reach_save _ _ reach_start)))
           two_readings_ledger).
Defined.




(** ** Stations that differ in case *)




(** ** The sensor: [extract_station_type] *)

Lemma split_fold_case (s : list N) :
  split underscore (fold_case s) = map fold_case (split underscore s).
Proof.
  induction s as [|c rest IH]; [reflexivity|].
  cbn [fold_case map split]. fold (fold_case rest). rewrite IH.
  assert (N.eqb (if is_upper c then (c + 32)%N else c) underscore = N.eqb c underscore) as ->.
  { unfold is_upper, in_range, underscore.
    destruct (N.leb_spec 65 c); destruct (N.leb_spec c 90); cbn [andb];
      destruct (N.eqb_spec (c + 32) 95); destruct (N.eqb_spec c 95); try reflexivity; lia. }
  destruct (N.eqb c underscore); [reflexivity|].
  destruct (split underscore rest); reflexivity.
Qed.

Lemma last_map_fold_case (parts : list (list N)) :
  List.last (map fold_case parts) [] = fold_case (List.last parts []).
Proof.
  induction parts as [|p [|q parts] IH]; try reflexivity.
  exact IH.
Qed.

Section SensorAndServer.

Variable str_lower : list N -> list N.

(** On ASCII text [str.lower] changes the capital letters A to Z only. *)
Hypothesis str_lower_ascii :
  forall s, Forall (fun c => (c < 128)%N) s -> str_lower s = fold_case s.

(** X20.  The station type of the sensor and the label of the server: for
    an ASCII identifier with an underscore the type is the label in lower
    case; for one without, the type is [normal] while the label is the
    whole identifier. *)
Theorem extract_station_type_label (station_id : list N) :
  Forall (fun c => (c < 128)%N) station_id ->
  extract_station_type str_lower station_id =
  if in_dec N.eq_dec underscore station_id
  then fold_case (extract_station_location station_id)
  else py "normal".
Proof.
  intros Hascii. unfold extract_station_type, extract_station_location.
  rewrite (str_lower_ascii _ Hascii), split_fold_case, length_map, last_map_fold_case.
  destruct (in_dec N.eq_dec underscore station_id) as [Hin|Hnot].
  - destruct (split_with_separator _ _ Hin) as (Hparts & _).
    apply Nat.ltb_lt in Hparts. now rewrite Hparts.
  - now rewrite (split_without_separator _ _ Hnot).
Qed.

End SensorAndServer.

Lemma extract_station_type_label_witness :
  extract_station_type fold_case (py "Station01_Coastal") = py "coastal" /\
  extract_station_location (py "Station01_Coastal") = py "Coastal" /\
  extract_station_type fold_case (py "station04") = py "normal".
Proof.
  split; [|split; [reflexivity|]].
  - apply (extract_station_type_label fold_case (fun s _ => eq_refl) (py "Station01_Coastal")).
    repeat constructor.
  - apply (extract_station_type_label fold_case (fun s _ => eq_refl) (py "station04")).
    repeat constructor.
Defined.

(** ** What [save_station_data] accepts *)







